(** * OnlineGS backend: a shallow embedding of the Express / Socket.io server

    The development follows the backend sources:
    - [routes/chat.js]    message history, post and delete;
    - [routes/notes.js]   the shared note and its archive;
    - [routes/tasks.js]   the task board;
    - [routes/groups.js]  the group directory (create, join, leave);
    - [socket/socketHandler.js]  rooms, presence roster and chat events.

    Firestore is a record of finite maps, Socket.io is a record holding the
    connections, the rooms, the presence roster and the list of emitted
    events.  Handlers are computations in a state-and-exception monad over
    that world; the clock, Firestore's automatic document ids and the
    random bytes behind [uuidv4] are oracles read through a counter. *)

From Stdlib Require Import ZArith Ascii String List Bool Lia.
From stdpp Require Import base option list sorting gmap strings pretty.

Local Open Scope string_scope.
Local Open Scope list_scope.

(** ** JavaScript strings

    A string is a sequence of 8-bit characters: code units below 256.  The
    case mapping is the ASCII one; other characters are left alone. *)

Module Js.

(** [WhiteSpace] and [LineTerminator] code units below 256: what
    [String.prototype.trim] and the validator's [trim()] strip. *)
Definition is_ws (c : ascii) : bool :=
  let n := nat_of_ascii c in
  (n =? 9)%nat || (n =? 10)%nat || (n =? 11)%nat || (n =? 12)%nat
  || (n =? 13)%nat || (n =? 32)%nat || (n =? 160)%nat.

Fixpoint trimStart (s : string) : string :=
  match s with
  | EmptyString => EmptyString
  | String c s' => if is_ws c then trimStart s' else s
  end.

Fixpoint trimEnd (s : string) : string :=
  match s with
  | EmptyString => EmptyString
  | String c s' =>
      match trimEnd s' with
      | EmptyString => if is_ws c then EmptyString else String c EmptyString
      | r => String c r
      end
  end.

Definition trim (s : string) : string := trimEnd (trimStart s).

Definition upper_char (c : ascii) : ascii :=
  let n := nat_of_ascii c in
  if (97 <=? n)%nat && (n <=? 122)%nat then ascii_of_nat (n - 32) else c.

Fixpoint toUpperCase (s : string) : string :=
  match s with
  | EmptyString => EmptyString
  | String c s' => String (upper_char c) (toUpperCase s')
  end.

(** [s.replace(/-/g, "")] *)
Fixpoint stripDashes (s : string) : string :=
  match s with
  | EmptyString => EmptyString
  | String c s' =>
      if Ascii.eqb c "-"%char then stripDashes s' else String c (stripDashes s')
  end.

(** [s.slice(0, n)] for [n >= 0] *)
Definition slice0 (n : nat) (s : string) : string := String.substring 0 n s.

(** Truthiness of a string that may be [undefined]. *)
Definition truthy (o : option string) : bool :=
  match o with
  | Some s => negb (String.eqb s "")
  | None => false
  end.

(** Values a JSON body field can carry where the handler does not insist on
    a string. *)
Inductive Value :=
| VUndefined
| VNull
| VBool (b : bool)
| VNum (z : Z)
| VStr (s : string).

Definition value_truthy (v : Value) : bool :=
  match v with
  | VUndefined | VNull => false
  | VBool b => b
  | VNum z => negb (z =? 0)%Z
  | VStr s => negb (String.eqb s "")
  end.

End Js.

(** ** Decimal integers in query strings *)

Module Num.

Definition is_digit (c : ascii) : bool :=
  let n := nat_of_ascii c in (48 <=? n)%nat && (n <=? 57)%nat.

Definition digit (c : ascii) : Z := Z.of_nat (nat_of_ascii c) - 48.

Fixpoint digits_value (acc : Z) (s : string) : Z :=
  match s with
  | EmptyString => acc
  | String c s' => digits_value (10 * acc + digit c) s'
  end.

Fixpoint all_digits (s : string) : bool :=
  match s with
  | EmptyString => true
  | String c s' => is_digit c && all_digits s'
  end.

(** The longest prefix of decimal digits. *)
Fixpoint digit_prefix (s : string) : string :=
  match s with
  | EmptyString => EmptyString
  | String c s' => if is_digit c then String c (digit_prefix s') else EmptyString
  end.

Definition strip_sign (s : string) : Z * string :=
  match s with
  | String "-" s' => (-1, s')
  | String "+" s' => (1, s')
  | _ => (1, s)
  end%Z.

(** [parseInt(s, 10)]; [None] is [NaN].  An absent parameter is the string
    ["undefined"], which holds no digit. *)
Definition parseInt (o : option string) : option Z :=
  match o with
  | None => None
  | Some s =>
      let '(sg, rest) := strip_sign (Js.trimStart s) in
      match digit_prefix rest with
      | EmptyString => None
      | ds => Some (sg * digits_value 0 ds)%Z
      end
  end.

(** validator.js [isInt] when [allow_leading_zeroes] is not set to [false]:
    the string is an optional sign followed by one or more decimal digits
    (leading zeros are fine), and its value lies between [lo] and [hi]. *)
Definition int_syntax (s : string) : option Z :=
  let '(sg, rest) := strip_sign s in
  match rest with
  | EmptyString => None
  | String _ _ =>
      if all_digits rest then Some (sg * digits_value 0 rest)%Z else None
  end.

Definition isInt (lo hi : Z) (s : string) : bool :=
  match int_syntax s with
  | Some v => (lo <=? v)%Z && (v <=? hi)%Z
  | None => false
  end.

End Num.

(** ** Data model: the Firestore documents *)

(** The decoded JWT payload attached to a request or a socket. *)
Record UserClaims := {
  userId : string;
  email : string;
  displayName : string;
}.

(** The [{ userId, displayName }] snapshot embedded in notes and tasks. *)
Record UserRef := {
  ref_userId : string;
  ref_displayName : string;
}.

Definition ref_of (u : UserClaims) : UserRef :=
  {| ref_userId := userId u; ref_displayName := displayName u |}.

Inductive Role := admin | member.

Global Instance Role_eq_dec : EqDecision Role.
Proof. solve_decision. Defined.

Record Member := {
  m_userId : string;
  m_email : string;
  m_displayName : string;
  m_role : Role;
  m_joinedAt : string;
}.

Global Instance Member_eq_dec : EqDecision Member.
Proof. solve_decision. Defined.

Record Group := {
  g_groupId : string;
  g_name : string;
  g_description : string;
  g_inviteCode : string;
  g_createdBy : string;
  g_members : list Member;
  g_createdAt : string;
  g_updatedAt : string;
}.

(** Of a user document the handlers below touch [groups] and [updatedAt]. *)
Record User := {
  u_userId : string;
  u_email : string;
  u_displayName : string;
  u_groups : list string;
  u_updatedAt : string;
}.

Record Message := {
  messageId : string;
  msg_groupId : string;
  senderId : string;
  senderEmail : string;
  senderName : string;
  text : string;
  msg_createdAt : string;
  msg_updatedAt : string;
}.

Record Note := {
  n_groupId : string;
  n_content : string;
  n_lastEditedBy : UserRef;
  n_lastEditedAt : string;
  n_updatedAt : string;
}.

Record HistoryEntry := {
  h_content : string;
  h_savedBy : UserRef;
  h_savedAt : string;
  h_archivedAt : string;
}.

Record Task := {
  taskId : string;
  t_groupId : string;
  t_title : string;
  t_description : string;
  t_assignee : option UserRef;
  t_dueDate : option string;
  t_completed : Js.Value;
  t_completedAt : option string;
  t_completedBy : option UserRef;
  t_createdBy : UserRef;
  t_createdAt : string;
  t_updatedAt : string;
}.

(** ** The store *)

Inductive Coll := Groups | Users | Messages | Notes | NoteHistory | Tasks.

(** One entry per write call reaching Firestore, in call order. *)
Inductive Write :=
| WSet (c : Coll) (id : string)
| WUpdate (c : Coll) (id : string)
| WDelete (c : Coll) (id : string)
| WAdd (c : Coll) (parent : string).

Record Db := {
  groups : gmap string Group;
  users : gmap string User;
  messages : gmap string Message;
  notes : gmap string Note;
  (** [notes/{groupId}/noteHistory]: document id and data, oldest first *)
  noteHistory : gmap string (list (string * HistoryEntry));
  tasks : gmap string Task;
  writes : list Write;
}.

Definition empty_db : Db :=
  {| groups := ∅; users := ∅; messages := ∅; notes := ∅; noteHistory := ∅;
     tasks := ∅; writes := [] |}.

(** ** Socket.io *)

Record UserInfo := {
  ui_userId : string;
  ui_displayName : string;
  ui_socketId : string;
}.

Inductive Target :=
| ToSocket (sid : string)              (** [socket.emit] *)
| ToRoom (room : string)               (** [io.to(room).emit] *)
| ToRoomExcept (room : string) (sid : string).  (** [socket.to(room).emit] *)

Inductive Event :=
| EvError (message : string)
| EvNewMessage (m : Message)
| EvMessageDeleted (mid gid : string)
| EvTyping (uid name gid : string)
| EvStopTyping (uid gid : string)
| EvUserJoined (uid name : string)
| EvUserLeft (uid name : option string)
| EvOnlineUsers (gid : string) (us : list UserInfo)
| EvNoteUpdated (gid : string) (by_ : UserRef) (at_ : string).

Record Emission := {
  em_target : Target;
  em_recipients : gset string;   (** the sockets the adapter delivers to *)
  em_event : Event;
}.

(** Per-connection state: [socket.user] and the closure's [joinedGroups]. *)
Record Conn := {
  c_user : option UserClaims;
  c_joined : list string;
}.

Record Io := {
  conns : gmap string Conn;
  rooms : gmap string (gset string);
  (** [onlineUsers]: group id to a [Map] from user id to its entry, kept in
      insertion order *)
  onlineUsers : gmap string (list (string * UserInfo));
  outbox : list Emission;
}.

Definition empty_io : Io :=
  {| conns := ∅; rooms := ∅; onlineUsers := ∅; outbox := [] |}.

(** ** Oracles and the world *)

Record Env := {
  clock : nat -> string;          (** [new Date().toISOString()] *)
  autoId : nat -> string;         (** [collection.doc().id] *)
  randomByte : nat -> nat -> Z;   (** the 16 bytes one [uuidv4()] draws *)
  isISO8601 : string -> bool;     (** validator.js *)
  jwtVerify : string -> option UserClaims;   (** [jwt.verify] with the secret *)
}.

Record World := {
  db : Db;
  io : Io;
  tick : nat;   (** how many oracle reads happened so far *)
}.

Definition init_world : World := {| db := empty_db; io := empty_io; tick := 0 |}.

Definition with_db (f : Db -> Db) (w : World) : World :=
  {| db := f (db w); io := io w; tick := tick w |}.

Definition with_io (f : Io -> Io) (w : World) : World :=
  {| db := db w; io := f (io w); tick := tick w |}.

(** ** The handler monad: state and JavaScript exceptions *)

Record JsError := {
  err_status : option nat;
  err_message : string;
}.

Inductive Res (A : Type) :=
| Ok (a : A)
| Throw (e : JsError).

Arguments Ok {A} a.
Arguments Throw {A} e.

Definition M (A : Type) : Type := World -> Res A * World.

Definition ret {A} (a : A) : M A := fun w => (Ok a, w).

Definition bind {A B} (m : M A) (k : A -> M B) : M B :=
  fun w => match m w with
           | (Ok a, w') => k a w'
           | (Throw e, w') => (Throw e, w')
           end.

Definition throw {A} (st : option nat) (msg : string) : M A :=
  fun w => (Throw {| err_status := st; err_message := msg |}, w).

Definition gets {A} (f : World -> A) : M A := fun w => (Ok (f w), w).

Definition modify (f : World -> World) : M unit := fun w => (Ok tt, f w).

Declare Scope js_scope.
Delimit Scope js_scope with js.
Notation "x <- m ;; k" := (bind m (fun x => k))
  (at level 100, m at next level, right associativity) : js_scope.
Notation "m ;;; k" := (bind m (fun _ => k))
  (at level 100, right associativity) : js_scope.
Local Open Scope js_scope.

(** ** The [uuid] package

    [v4()] draws 16 random bytes into a [Uint8Array], forces the version and
    variant bits, and prints the bytes in lower-case hexadecimal in groups
    of 4, 2, 2, 2 and 6 bytes joined by dashes. *)

Module Uuid.

Definition hex_digit (n : Z) : ascii :=
  match String.get (Z.to_nat n) "0123456789abcdef" with
  | Some c => c
  | None => "0"%char
  end.

(** [(b + 0x100).toString(16).slice(1)] *)
Definition byteToHex (b : Z) : string :=
  String (hex_digit (Z.shiftr b 4)) (String (hex_digit (Z.land b 15)) EmptyString).

(** Storing into a [Uint8Array] keeps the low 8 bits. *)
Definition octet (z : Z) : Z := Z.land z 255.

Definition stamped (rnds : nat -> Z) (i : nat) : Z :=
  if (i =? 6)%nat then Z.lor (Z.land (octet (rnds 6%nat)) 15) 64
  else if (i =? 8)%nat then Z.lor (Z.land (octet (rnds 8%nat)) 63) 128
  else octet (rnds i).

Definition hex_bytes (b : nat -> Z) (ixs : list nat) : string :=
  foldr (fun i acc => String.append (byteToHex (b i)) acc) EmptyString ixs.

Definition v4 (rnds : nat -> Z) : string :=
  let b := stamped rnds in
  String.concat "-"
    [hex_bytes b [0; 1; 2; 3]; hex_bytes b [4; 5]; hex_bytes b [6; 7];
     hex_bytes b [8; 9]; hex_bytes b [10; 11; 12; 13; 14; 15]]%nat.

End Uuid.

(** [uuidv4().replace(/-/g, "").slice(0, 8).toUpperCase()] *)
Definition make_invite_code (rnds : nat -> Z) : string :=
  Js.toUpperCase (Js.slice0 8 (Js.stripDashes (Uuid.v4 rnds))).

(** ** HTTP responses *)

Inductive Body :=
| BMessage (message : string)
| BErrors (errors : list string)
| BMessages (ms : list Message)
| BPosted (m : Message)
| BGroup (message : string) (g : Group)
| BNote (message : string) (n : Note)
| BHistory (history : list (string * HistoryEntry))
| BTask (message : string) (t : Task).

Record Response := {
  status : nat;
  body : Body;
}.

Definition respond (st : nat) (b : Body) : M Response :=
  ret {| status := st; body := b |}.

(** [catch (error) { res.status(error.status || 500)
                        .json({ message: error.message || fallback }) }] *)
Definition catch_status (fallback : string) (m : M Response) (w : World)
  : Response * World :=
  match m w with
  | (Ok r, w') => (r, w')
  | (Throw e, w') =>
      ({| status := match err_status e with
                    | Some (S n) => S n
                    | _ => 500
                    end;
          body := BMessage (if String.eqb (err_message e) ""
                            then fallback else err_message e) |}, w')
  end.

(** [catch (error) { res.status(500).json({ message }) }] *)
Definition catch_500 (msg : string) (m : M Response) (w : World)
  : Response * World :=
  match m w with
  | (Ok r, w') => (r, w')
  | (Throw _, w') => ({| status := 500; body := BMessage msg |}, w')
  end.

(** ** Sorting, as Firestore's [orderBy] *)

Section OrderBy.
Context {A : Type} (key : A -> string).

Fixpoint insert_desc (x : A) (l : list A) : list A :=
  match l with
  | [] => [x]
  | y :: l' =>
      if String.leb (key y) (key x) then x :: l else y :: insert_desc x l'
  end.

Definition orderBy_desc (l : list A) : list A := foldr insert_desc [] l.

End OrderBy.

(** ** Primitives: oracles, Firestore calls, Socket.io emissions *)

Definition log_write (x : Write) (d : Db) : Db :=
  {| groups := groups d; users := users d; messages := messages d;
     notes := notes d; noteHistory := noteHistory d; tasks := tasks d;
     writes := writes d ++ [x] |}.

Definition put_groups (v : gmap string Group) (d : Db) : Db :=
  {| groups := v; users := users d; messages := messages d;
     notes := notes d; noteHistory := noteHistory d; tasks := tasks d;
     writes := writes d |}.

Definition put_users (v : gmap string User) (d : Db) : Db :=
  {| groups := groups d; users := v; messages := messages d;
     notes := notes d; noteHistory := noteHistory d; tasks := tasks d;
     writes := writes d |}.

Definition put_messages (v : gmap string Message) (d : Db) : Db :=
  {| groups := groups d; users := users d; messages := v;
     notes := notes d; noteHistory := noteHistory d; tasks := tasks d;
     writes := writes d |}.

Definition put_notes (v : gmap string Note) (d : Db) : Db :=
  {| groups := groups d; users := users d; messages := messages d;
     notes := v; noteHistory := noteHistory d; tasks := tasks d;
     writes := writes d |}.

Definition put_noteHistory (v : gmap string (list (string * HistoryEntry)))
  (d : Db) : Db :=
  {| groups := groups d; users := users d; messages := messages d;
     notes := notes d; noteHistory := v; tasks := tasks d;
     writes := writes d |}.

Definition put_tasks (v : gmap string Task) (d : Db) : Db :=
  {| groups := groups d; users := users d; messages := messages d;
     notes := notes d; noteHistory := noteHistory d; tasks := v;
     writes := writes d |}.

Definition put_conns (v : gmap string Conn) (i : Io) : Io :=
  {| conns := v; rooms := rooms i; onlineUsers := onlineUsers i;
     outbox := outbox i |}.

Definition put_rooms (v : gmap string (gset string)) (i : Io) : Io :=
  {| conns := conns i; rooms := v; onlineUsers := onlineUsers i;
     outbox := outbox i |}.

Definition put_onlineUsers (v : gmap string (list (string * UserInfo)))
  (i : Io) : Io :=
  {| conns := conns i; rooms := rooms i; onlineUsers := v;
     outbox := outbox i |}.

Definition put_outbox (v : list Emission) (i : Io) : Io :=
  {| conns := conns i; rooms := rooms i; onlineUsers := onlineUsers i;
     outbox := v |}.

(** Who receives an emission, read off the rooms at the time of the call. *)
Definition recipients (t : Target) (i : Io) : gset string :=
  match t with
  | ToSocket sid => {[ sid ]}
  | ToRoom r => default ∅ (rooms i !! r)
  | ToRoomExcept r sid => default ∅ (rooms i !! r) ∖ {[ sid ]}
  end.

Definition emit (t : Target) (ev : Event) : M unit :=
  modify (with_io (fun i =>
    put_outbox (outbox i ++ [{| em_target := t;
                                em_recipients := recipients t i;
                                em_event := ev |}]) i)).

(** A write through [ref.update(...)] fails when the document is absent. *)
Definition not_found {A} : M A := throw None "No document to update".

Section Server.
Context (env : Env).

Definition next_tick (w : World) : World :=
  {| db := db w; io := io w; tick := S (tick w) |}.

Definition now : M string :=
  fun w => (Ok (clock env (tick w)), next_tick w).

Definition newDocId : M string :=
  fun w => (Ok (autoId env (tick w)), next_tick w).

Definition drawBytes : M (nat -> Z) :=
  fun w => (Ok (randomByte env (tick w)), next_tick w).

(** *** groups *)

Definition getGroup (id : string) : M (option Group) :=
  gets (fun w => groups (db w) !! id).

Definition setGroup (id : string) (g : Group) : M unit :=
  modify (with_db (fun d =>
    log_write (WSet Groups id) (put_groups (<[id := g]> (groups d)) d))).

Definition updateGroup (id : string) (f : Group -> Group) : M unit :=
  snap <- getGroup id;;
  match snap with
  | None => not_found
  | Some g =>
      modify (with_db (fun d =>
        log_write (WUpdate Groups id) (put_groups (<[id := f g]> (groups d)) d)))
  end.

Definition deleteGroup (id : string) : M unit :=
  modify (with_db (fun d =>
    log_write (WDelete Groups id) (put_groups (delete id (groups d)) d))).

(** *** users *)

Definition updateUser (id : string) (f : User -> User) : M unit :=
  snap <- gets (fun w => users (db w) !! id);;
  match snap with
  | None => not_found
  | Some u =>
      modify (with_db (fun d =>
        log_write (WUpdate Users id) (put_users (<[id := f u]> (users d)) d)))
  end.

(** *** messages *)

Definition getMessage (id : string) : M (option Message) :=
  gets (fun w => messages (db w) !! id).

Definition setMessage (id : string) (m : Message) : M unit :=
  modify (with_db (fun d =>
    log_write (WSet Messages id) (put_messages (<[id := m]> (messages d)) d))).

Definition deleteMessage (id : string) : M unit :=
  modify (with_db (fun d =>
    log_write (WDelete Messages id) (put_messages (delete id (messages d)) d))).

(** *** notes and their archive *)

Definition getNote (id : string) : M (option Note) :=
  gets (fun w => notes (db w) !! id).

(** [noteRef.set(noteData, { merge: true })]: the data names every field of
    the document, so the merge leaves nothing of an older version. *)
Definition setNote (id : string) (n : Note) : M unit :=
  modify (with_db (fun d =>
    log_write (WSet Notes id) (put_notes (<[id := n]> (notes d)) d))).

Definition history_of (d : Db) (gid : string) : list (string * HistoryEntry) :=
  default [] (noteHistory d !! gid).

(** [noteRef.collection("noteHistory").add(entry)] *)
Definition addHistory (gid : string) (e : HistoryEntry) : M unit :=
  id <- newDocId;;
  modify (with_db (fun d =>
    log_write (WAdd NoteHistory gid)
      (put_noteHistory (<[gid := history_of d gid ++ [(id, e)]]> (noteHistory d)) d))).

(** *** tasks *)

Definition getTask (id : string) : M (option Task) :=
  gets (fun w => tasks (db w) !! id).

Definition updateTask (id : string) (f : Task -> Task) : M unit :=
  snap <- getTask id;;
  match snap with
  | None => not_found
  | Some t =>
      modify (with_db (fun d =>
        log_write (WUpdate Tasks id) (put_tasks (<[id := f t]> (tasks d)) d)))
  end.

Definition deleteTask (id : string) : M unit :=
  modify (with_db (fun d =>
    log_write (WDelete Tasks id) (put_tasks (delete id (tasks d)) d))).

(** ** The membership gate shared by chat, notes and tasks *)

Definition is_member (uid : string) (g : Group) : bool :=
  existsb (fun m => String.eqb (m_userId m) uid) (g_members g).

Definition requireGroupMembership (groupId uid : string) : M Group :=
  groupSnap <- getGroup groupId;;
  match groupSnap with
  | None => throw (Some 404) "Group not found."
  | Some group =>
      if is_member uid group then ret group
      else throw (Some 403) "You are not a member of this group."
  end.

(** ** routes/chat.js *)

Record GetMessagesReq := {
  gm_user : UserClaims;
  gm_groupId : string;
  gm_limit : option string;     (** [req.query.limit] *)
  gm_before : option string;    (** [req.query.before] *)
}.

(** [query("limit").optional().isInt({ min: 1, max: 100 })] *)
Definition validate_limit (l : option string) : list string :=
  match l with
  | None => []
  | Some s => if Num.isInt 1 100 s then [] else ["limit must be between 1 and 100"]
  end.

(** [parseInt(req.query.limit, 10) || 50] *)
Definition page_size (l : option string) : Z :=
  match Num.parseInt l with
  | Some n => if (n =? 0)%Z then 50%Z else n
  | None => 50%Z
  end.

(** The query [where groupId == g], [orderBy createdAt desc], [limit], and
    [where createdAt < before] when a cursor came with the request. *)
Definition matching_messages (d : Db) (gid : string) (before : option string)
  : list Message :=
  let in_group :=
    List.filter (fun m => String.eqb (msg_groupId m) gid)
                (map_to_list (messages d)).*2 in
  match before with
  | Some b =>
      if String.eqb b "" then in_group
      else List.filter (fun m => String.ltb (msg_createdAt m) b) in_group
  | None => in_group
  end.

Definition query_messages (d : Db) (gid : string) (before : option string)
  (limit : Z) : list Message :=
  take (Z.to_nat limit) (orderBy_desc msg_createdAt (matching_messages d gid before)).

Definition get_messages (req : GetMessagesReq) : World -> Response * World :=
  match validate_limit (gm_limit req) with
  | (_ :: _) as errors => fun w => ({| status := 400; body := BErrors errors |}, w)
  | [] =>
      catch_status "Server error fetching messages."
        (let limit := page_size (gm_limit req) in
         requireGroupMembership (gm_groupId req) (userId (gm_user req));;;
         snap <- gets (fun w => query_messages (db w) (gm_groupId req)
                                               (gm_before req) limit);;
         respond 200 (BMessages (reverse snap)))
  end.

Record PostMessageReq := {
  pm_user : UserClaims;
  pm_groupId : string;
  pm_text : option string;      (** [req.body.text] *)
}.

(** [body("text").trim().notEmpty().isLength({ max: 2000 })]: the sanitised
    text and the messages of the validators that failed. *)
Definition validate_text (t : option string) : string * list string :=
  let s := Js.trim (default "" t) in
  (s, (if String.eqb s "" then ["Message text cannot be empty"] else [])
      ++ (if (2000 <? String.length s)%nat
          then ["Message must be 2000 characters or less"] else [])).

Definition build_message (id gid : string) (u : UserClaims) (txt : string)
  (created updated : string) : Message :=
  {| messageId := id; msg_groupId := gid; senderId := userId u;
     senderEmail := email u; senderName := displayName u;
     text := Js.trim txt; msg_createdAt := created; msg_updatedAt := updated |}.

Definition post_message (req : PostMessageReq) : World -> Response * World :=
  let '(txt, errors) := validate_text (pm_text req) in
  match errors with
  | _ :: _ => fun w => ({| status := 400; body := BErrors errors |}, w)
  | [] =>
      catch_status "Server error posting message."
        (requireGroupMembership (pm_groupId req) (userId (pm_user req));;;
         id <- newDocId;;
         created <- now;;
         updated <- now;;
         let message :=
           build_message id (pm_groupId req) (pm_user req) txt created updated in
         setMessage id message;;;
         emit (ToRoom (pm_groupId req)) (EvNewMessage message);;;
         respond 201 (BPosted message))
  end.

Record DeleteMessageReq := {
  dm_user : UserClaims;
  dm_groupId : string;
  dm_messageId : string;
}.

Definition delete_message (req : DeleteMessageReq) : World -> Response * World :=
  catch_status "Server error deleting message."
    (requireGroupMembership (dm_groupId req) (userId (dm_user req));;;
     msgSnap <- getMessage (dm_messageId req);;
     match msgSnap with
     | None => respond 404 (BMessage "Message not found.")
     | Some msgData =>
         if negb (String.eqb (senderId msgData) (userId (dm_user req)))
         then respond 403 (BMessage "You can only delete your own messages.")
         else if negb (String.eqb (msg_groupId msgData) (dm_groupId req))
         then respond 400 (BMessage "Message does not belong to this group.")
         else
           deleteMessage (dm_messageId req);;;
           emit (ToRoom (dm_groupId req))
                (EvMessageDeleted (dm_messageId req) (dm_groupId req));;;
           respond 200 (BMessage "Message deleted successfully.")
     end).

(** ** routes/notes.js *)

Record PutNoteReq := {
  pn_user : UserClaims;
  pn_groupId : string;
  pn_content : option string;   (** [req.body.content] *)
}.

Definition put_note (req : PutNoteReq) : World -> Response * World :=
  match pn_content req with
  | None =>
      fun w => ({| status := 400;
                   body := BErrors ["content field is required (may be empty string)"] |}, w)
  | Some content =>
      catch_status "Server error saving note."
        (requireGroupMembership (pn_groupId req) (userId (pn_user req));;;
         noteSnap <- getNote (pn_groupId req);;
         match noteSnap with
         | Some prevData =>
             archivedAt <- now;;
             addHistory (pn_groupId req)
               {| h_content := n_content prevData;
                  h_savedBy := n_lastEditedBy prevData;
                  h_savedAt := n_lastEditedAt prevData;
                  h_archivedAt := archivedAt |}
         | None => ret tt
         end;;;
         now_ <- now;;
         let noteData :=
           {| n_groupId := pn_groupId req; n_content := content;
              n_lastEditedBy := ref_of (pn_user req);
              n_lastEditedAt := now_; n_updatedAt := now_ |} in
         setNote (pn_groupId req) noteData;;;
         emit (ToRoom (pn_groupId req))
              (EvNoteUpdated (pn_groupId req) (ref_of (pn_user req)) now_);;;
         respond 200 (BNote "Note saved successfully." noteData))
  end.

Definition get_note_history (u : UserClaims) (gid : string)
  : World -> Response * World :=
  catch_status "Server error fetching note history."
    (requireGroupMembership gid (userId u);;;
     historySnap <- gets (fun w =>
       take 10 (orderBy_desc (fun e => h_archivedAt e.2) (history_of (db w) gid)));;
     respond 200 (BHistory historySnap)).

(** ** routes/tasks.js *)

(** The tasks file has its own copy of the gate; it returns nothing. *)
Definition requireMember (groupId uid : string) : M unit :=
  requireGroupMembership groupId uid;;; ret tt.

Record UpdateTaskBody := {
  ut_title : option string;
  ut_description : option string;
  ut_assignee : option (option UserRef);   (** absent, [null] or an object *)
  ut_dueDate : option string;
}.

Record UpdateTaskReq := {
  ut_user : UserClaims;
  ut_groupId : string;
  ut_taskId : string;
  ut_body : UpdateTaskBody;
}.

(** The three validation chains of [PUT]; the first also trims the title. *)
Definition validate_update (b : UpdateTaskBody) : option string * list string :=
  let title := Js.trim <$> ut_title b in
  (title,
   match title with
   | Some s => (if String.eqb s "" then ["Title cannot be empty if provided"] else [])
               ++ (if (200 <? String.length s)%nat then ["Invalid value"] else [])
   | None => []
   end
   ++ match ut_description b with
      | Some s => if (1000 <? String.length s)%nat then ["Invalid value"] else []
      | None => []
      end
   ++ match ut_dueDate b with
      | Some s => if isISO8601 env s then [] else ["Invalid date format"]
      | None => []
      end).

Definition apply_updates (title : option string) (b : UpdateTaskBody)
  (updatedAt : string) (t : Task) : Task :=
  {| taskId := taskId t; t_groupId := t_groupId t;
     t_title := match title with Some s => Js.trim s | None => t_title t end;
     t_description := match ut_description b with
                      | Some s => Js.trim s
                      | None => t_description t
                      end;
     t_assignee := match ut_assignee b with
                   | Some a => a
                   | None => t_assignee t
                   end;
     t_dueDate := match ut_dueDate b with
                  | Some s => Some s
                  | None => t_dueDate t
                  end;
     t_completed := t_completed t; t_completedAt := t_completedAt t;
     t_completedBy := t_completedBy t; t_createdBy := t_createdBy t;
     t_createdAt := t_createdAt t; t_updatedAt := updatedAt |}.

(** [(await taskRef.get()).data()] sent back with a message. *)
Definition respond_task (msg : string) (id : string) : M Response :=
  snap <- getTask id;;
  match snap with
  | Some t => respond 200 (BTask msg t)
  | None => respond 200 (BMessage msg)
  end.

Definition update_task (req : UpdateTaskReq) : World -> Response * World :=
  let '(title, errors) := validate_update (ut_body req) in
  match errors with
  | _ :: _ => fun w => ({| status := 400; body := BErrors errors |}, w)
  | [] =>
      catch_status "Server error updating task."
        (requireMember (ut_groupId req) (userId (ut_user req));;;
         taskSnap <- getTask (ut_taskId req);;
         match taskSnap with
         | None => respond 404 (BMessage "Task not found.")
         | Some t =>
             if negb (String.eqb (t_groupId t) (ut_groupId req))
             then respond 400 (BMessage "Task does not belong to this group.")
             else
               updatedAt <- now;;
               updateTask (ut_taskId req) (apply_updates title (ut_body req) updatedAt);;;
               respond_task "Task updated successfully." (ut_taskId req)
         end)
  end.

Record TaskReq := {
  tr_user : UserClaims;
  tr_groupId : string;
  tr_taskId : string;
}.

Definition delete_task (req : TaskReq) : World -> Response * World :=
  catch_status "Server error deleting task."
    (requireMember (tr_groupId req) (userId (tr_user req));;;
     taskSnap <- getTask (tr_taskId req);;
     match taskSnap with
     | None => respond 404 (BMessage "Task not found.")
     | Some t =>
         if negb (String.eqb (t_groupId t) (tr_groupId req))
         then respond 400 (BMessage "Task does not belong to this group.")
         else
           deleteTask (tr_taskId req);;;
           respond 200 (BMessage "Task deleted successfully.")
     end).

(** validator.js [isBoolean] on the field turned into a string. *)
Definition isBoolean (v : Js.Value) : bool :=
  match v with
  | Js.VBool _ => true
  | Js.VNum z => (z =? 0)%Z || (z =? 1)%Z
  | Js.VStr s => String.eqb s "true" || String.eqb s "false"
                 || String.eqb s "1" || String.eqb s "0"
  | _ => false
  end.

Definition mark_completed (completed : Js.Value) (u : UserClaims) (now_ : string)
  (t : Task) : Task :=
  {| taskId := taskId t; t_groupId := t_groupId t; t_title := t_title t;
     t_description := t_description t; t_assignee := t_assignee t;
     t_dueDate := t_dueDate t;
     t_completed := completed;
     t_completedAt := if Js.value_truthy completed then Some now_ else None;
     t_completedBy := if Js.value_truthy completed then Some (ref_of u) else None;
     t_createdBy := t_createdBy t; t_createdAt := t_createdAt t;
     t_updatedAt := now_ |}.

Definition complete_task (req : TaskReq) (completed : Js.Value)
  : World -> Response * World :=
  if negb (isBoolean completed)
  then fun w => ({| status := 400;
                    body := BErrors ["completed must be a boolean value"] |}, w)
  else
    catch_status "Server error updating task."
      (requireMember (tr_groupId req) (userId (tr_user req));;;
       taskSnap <- getTask (tr_taskId req);;
       match taskSnap with
       | None => respond 404 (BMessage "Task not found.")
       | Some t =>
           if negb (String.eqb (t_groupId t) (tr_groupId req))
           then respond 400 (BMessage "Task does not belong to this group.")
           else
             now_ <- now;;
             updateTask (tr_taskId req) (mark_completed completed (tr_user req) now_);;;
             respond_task (if Js.value_truthy completed
                           then "Task marked as complete."
                           else "Task marked as incomplete.") (tr_taskId req)
       end).

(** ** routes/groups.js *)

(** [FieldValue.arrayUnion(x)] and [FieldValue.arrayRemove(x)] *)
Definition arrayUnion {A} `{EqDecision A} (x : A) (l : list A) : list A :=
  if decide (x ∈ l) then l else l ++ [x].

Definition arrayRemove (x : string) (l : list string) : list string :=
  List.filter (fun y => negb (String.eqb y x)) l.

Definition with_members (ms : list Member) (updatedAt : string) (g : Group) : Group :=
  {| g_groupId := g_groupId g; g_name := g_name g;
     g_description := g_description g; g_inviteCode := g_inviteCode g;
     g_createdBy := g_createdBy g; g_members := ms;
     g_createdAt := g_createdAt g; g_updatedAt := updatedAt |}.

Definition with_groups (f : list string -> list string) (updatedAt : string)
  (u : User) : User :=
  {| u_userId := u_userId u; u_email := u_email u;
     u_displayName := u_displayName u; u_groups := f (u_groups u);
     u_updatedAt := updatedAt |}.

Definition with_role (r : Role) (m : Member) : Member :=
  {| m_userId := m_userId m; m_email := m_email m;
     m_displayName := m_displayName m; m_role := r; m_joinedAt := m_joinedAt m |}.

Record CreateGroupReq := {
  cg_user : UserClaims;
  cg_name : option string;
  cg_description : option string;
}.

Definition validate_create (req : CreateGroupReq) : string * list string :=
  let name := Js.trim (default "" (cg_name req)) in
  (name,
   (if String.eqb name "" then ["Group name is required"] else [])
   ++ (if (80 <? String.length name)%nat
       then ["Group name must be 80 characters or less"] else [])
   ++ match cg_description req with
      | Some s => if (500 <? String.length s)%nat
                  then ["Description must be 500 characters or less"] else []
      | None => []
      end).

Definition create (req : CreateGroupReq) : World -> Response * World :=
  let '(name, errors) := validate_create req in
  match errors with
  | _ :: _ => fun w => ({| status := 400; body := BErrors errors |}, w)
  | [] =>
      catch_500 "Server error creating group."
        (let u := cg_user req in
         id <- newDocId;;
         rnds <- drawBytes;;
         let inviteCode := make_invite_code rnds in
         joinedAt <- now;;
         createdAt <- now;;
         updatedAt <- now;;
         let groupData :=
           {| g_groupId := id; g_name := Js.trim name;
              g_description := Js.trim (default "" (cg_description req));
              g_inviteCode := inviteCode; g_createdBy := userId u;
              g_members := [ {| m_userId := userId u; m_email := email u;
                                m_displayName := displayName u;
                                m_role := admin; m_joinedAt := joinedAt |} ];
              g_createdAt := createdAt; g_updatedAt := updatedAt |} in
         setGroup id groupData;;;
         userUpdatedAt <- now;;
         updateUser (userId u) (with_groups (arrayUnion id) userUpdatedAt);;;
         respond 201 (BGroup "Group created successfully" groupData))
  end.

Record JoinReq := {
  j_user : UserClaims;
  j_groupId : string;
  j_inviteCode : option string;   (** [req.body.inviteCode] *)
}.

Definition join (req : JoinReq) : World -> Response * World :=
  let inviteCode := Js.trim (default "" (j_inviteCode req)) in
  if String.eqb inviteCode ""
  then fun w => ({| status := 400; body := BErrors ["Invite code is required"] |}, w)
  else
    catch_500 "Server error joining group."
      (let u := j_user req in
       groupSnap <- getGroup (j_groupId req);;
       match groupSnap with
       | None => respond 404 (BMessage "Group not found.")
       | Some group =>
           if negb (String.eqb (Js.toUpperCase (g_inviteCode group))
                               (Js.toUpperCase inviteCode))
           then respond 400 (BMessage "Invalid invite code.")
           else if is_member (userId u) group
           then respond 409 (BMessage "You are already a member of this group.")
           else
             joinedAt <- now;;
             let newMember :=
               {| m_userId := userId u; m_email := email u;
                  m_displayName := displayName u; m_role := member;
                  m_joinedAt := joinedAt |} in
             updatedAt <- now;;
             updateGroup (j_groupId req)
               (fun g => with_members (arrayUnion newMember (g_members g)) updatedAt g);;;
             userUpdatedAt <- now;;
             updateUser (userId u) (with_groups (arrayUnion (j_groupId req)) userUpdatedAt);;;
             respond 200 (BGroup "Successfully joined the group." group)
       end).

(** [remainingMembers[0].role = "admin"] *)
Definition promote_first (l : list Member) : list Member :=
  match l with
  | [] => []
  | m :: rest => with_role admin m :: rest
  end.

Definition is_admin (m : Member) : bool := bool_decide (m_role m = admin).

Definition remaining_after (uid : string) (ms : list Member) : list Member :=
  List.filter (fun m => negb (String.eqb (m_userId m) uid)) ms.

Definition leave (u : UserClaims) (groupId : string) : World -> Response * World :=
  catch_500 "Server error leaving group."
    (groupSnap <- getGroup groupId;;
     match groupSnap with
     | None => respond 404 (BMessage "Group not found.")
     | Some group =>
         match List.find (fun m => String.eqb (m_userId m) (userId u)) (g_members group) with
         | None => respond 400 (BMessage "You are not a member of this group.")
         | Some memberEntry =>
             let remainingMembers := remaining_after (userId u) (g_members group) in
             (if (length remainingMembers =? 0)%nat
              then deleteGroup groupId
              else
                let hasOtherAdmin := existsb is_admin remainingMembers in
                let remainingMembers :=
                  if is_admin memberEntry && negb hasOtherAdmin
                  then promote_first remainingMembers else remainingMembers in
                updatedAt <- now;;
                updateGroup groupId (with_members remainingMembers updatedAt));;;
             userUpdatedAt <- now;;
             updateUser (userId u) (with_groups (arrayRemove groupId) userUpdatedAt);;;
             respond 200 (BMessage "Successfully left the group.")
         end
     end).

(** ** socket/socketHandler.js *)

(** [Map.prototype.set]: an existing key keeps its place. *)
Definition map_set (k : string) (v : UserInfo) (l : list (string * UserInfo))
  : list (string * UserInfo) :=
  if existsb (fun p => String.eqb p.1 k) l
  then (fun p => if String.eqb p.1 k then (k, v) else p) <$> l
  else l ++ [(k, v)].

(** [Map.prototype.delete]; the key may be [undefined], which is no key. *)
Definition map_delete (k : option string) (l : list (string * UserInfo))
  : list (string * UserInfo) :=
  match k with
  | Some k => List.filter (fun p => negb (String.eqb p.1 k)) l
  | None => l
  end.

Definition addOnlineUser (groupId : string) (userInfo : UserInfo) (i : Io) : Io :=
  let roster := default [] (onlineUsers i !! groupId) in
  put_onlineUsers
    (<[groupId := map_set (ui_userId userInfo) userInfo roster]> (onlineUsers i)) i.

Definition removeOnlineUser (groupId : string) (uid : option string) (i : Io) : Io :=
  match onlineUsers i !! groupId with
  | None => i
  | Some roster =>
      let roster' := map_delete uid roster in
      if (length roster' =? 0)%nat
      then put_onlineUsers (delete groupId (onlineUsers i)) i
      else put_onlineUsers (<[groupId := roster']> (onlineUsers i)) i
  end.

Definition getOnlineUsers (groupId : string) (i : Io) : list UserInfo :=
  match onlineUsers i !! groupId with
  | None => []
  | Some roster => roster.*2
  end.

(** [socket.join(room)] and [socket.leave(room)] *)
Definition room_join (sid room : string) (i : Io) : Io :=
  put_rooms (<[room := default ∅ (rooms i !! room) ∪ {[ sid ]}]> (rooms i)) i.

Definition room_leave (sid room : string) (i : Io) : Io :=
  match rooms i !! room with
  | None => i
  | Some s => put_rooms (<[room := s ∖ {[ sid ]}]> (rooms i)) i
  end.

(** [joinedGroups.add], [joinedGroups.delete] and [joinedGroups.clear] on the
    connection's own set. *)
Definition set_joined (sid : string) (f : list string -> list string) (i : Io) : Io :=
  match conns i !! sid with
  | None => i
  | Some c =>
      put_conns (<[sid := {| c_user := c_user c; c_joined := f (c_joined c) |}]> (conns i)) i
  end.

Definition set_add (x : string) (l : list string) : list string :=
  if existsb (String.eqb x) l then l else l ++ [x].

Definition set_delete (x : string) (l : list string) : list string :=
  List.filter (fun y => negb (String.eqb y x)) l.

Inductive ClientEvent :=
| JoinGroup (groupId : option string)
| LeaveGroup (groupId : option string)
| SendMessage (groupId text : option string)
| Typing (groupId : option string)
| StopTyping (groupId : option string)
| Disconnect.

(** A handler body without [try]: nothing in it throws. *)
Definition exec (m : M unit) (w : World) : World := (m w).2.

(** [try { ... } catch (err) { socket.emit("error", { message }) }] *)
Definition catch_emit (sid msg : string) (m : M unit) (w : World) : World :=
  match m w with
  | (Ok _, w') => w'
  | (Throw _, w') => exec (emit (ToSocket sid) (EvError msg)) w'
  end.

(** The handshake middleware and the [connection] callback. *)
Definition on_connection (sid : string) (token : option string) (w : World) : World :=
  let open user :=
    with_io (fun i => put_conns (<[sid := {| c_user := user; c_joined := [] |}]> (conns i)) i) w in
  match token with
  | Some t =>
      if String.eqb t "" then open None
      else match jwtVerify env t with
           | Some decoded => open (Some decoded)
           | None => w
           end
  | None => open None
  end.

Definition on_join_group (sid : string) (c : Conn) (groupId : option string)
  : World -> World :=
  catch_emit sid "Error joining group."
    match c_user c with
    | None => emit (ToSocket sid) (EvError "Authentication required.")
    | Some user =>
        if negb (Js.truthy groupId)
        then emit (ToSocket sid) (EvError "groupId is required.")
        else
          let gid := default "" groupId in
          groupSnap <- getGroup gid;;
          match groupSnap with
          | None => emit (ToSocket sid) (EvError "Group not found.")
          | Some g =>
              if negb (is_member (userId user) g)
              then emit (ToSocket sid) (EvError "You are not a member of this group.")
              else
                modify (with_io (room_join sid gid));;;
                modify (with_io (set_joined sid (set_add gid)));;;
                modify (with_io (addOnlineUser gid
                  {| ui_userId := userId user; ui_displayName := displayName user;
                     ui_socketId := sid |}));;;
                emit (ToRoomExcept gid sid)
                     (EvUserJoined (userId user) (displayName user));;;
                users_ <- gets (fun w => getOnlineUsers gid (io w));;
                emit (ToSocket sid) (EvOnlineUsers gid users_)
          end
    end.

Definition user_left (c : Conn) : Event :=
  EvUserLeft (userId <$> c_user c) (displayName <$> c_user c).

Definition on_leave_group (sid : string) (c : Conn) (groupId : option string)
  : World -> World :=
  if negb (Js.truthy groupId) then fun w => w
  else
    let gid := default "" groupId in
    exec
      (modify (with_io (room_leave sid gid));;;
       modify (with_io (set_joined sid (set_delete gid)));;;
       modify (with_io (removeOnlineUser gid (userId <$> c_user c)));;;
       emit (ToRoomExcept gid sid) (user_left c)).

Definition on_send_message (sid : string) (c : Conn) (groupId txt : option string)
  : World -> World :=
  match c_user c with
  | None => exec (emit (ToSocket sid) (EvError "Authentication required."))
  | Some user =>
      if negb (Js.truthy groupId) || negb (Js.truthy (Js.trim <$> txt))
      then exec (emit (ToSocket sid) (EvError "groupId and text are required."))
      else if (2000 <? String.length (Js.trim (default "" txt)))%nat
      then exec (emit (ToSocket sid)
                      (EvError "Message must be 2000 characters or less."))
      else
        let gid := default "" groupId in
        catch_emit sid "Error sending message."
          (id <- newDocId;;
           created <- now;;
           updated <- now;;
           let message := build_message id gid user (default "" txt) created updated in
           setMessage id message;;;
           emit (ToRoom gid) (EvNewMessage message))
  end.

Definition on_typing (sid : string) (c : Conn) (groupId : option string)
  : World -> World :=
  match c_user c with
  | None => fun w => w
  | Some user =>
      if negb (Js.truthy groupId) then fun w => w
      else
        let gid := default "" groupId in
        exec (emit (ToRoomExcept gid sid)
                   (EvTyping (userId user) (displayName user) gid))
  end.

Definition on_stop_typing (sid : string) (c : Conn) (groupId : option string)
  : World -> World :=
  match c_user c with
  | None => fun w => w
  | Some user =>
      if negb (Js.truthy groupId) then fun w => w
      else
        let gid := default "" groupId in
        exec (emit (ToRoomExcept gid sid) (EvStopTyping (userId user) gid))
  end.

(** Socket.io takes the socket out of every room before it fires
    [disconnect]; afterwards the connection is gone. *)
Definition leave_all_rooms (sid : string) (i : Io) : Io :=
  put_rooms ((fun s => s ∖ {[ sid ]}) <$> rooms i) i.

(** The body of [joinedGroups.forEach((groupId) => { ... })]. *)
Definition disconnect_step (c : Conn) (w : World) (gid : string) : World :=
  exec (emit (ToRoom gid) (user_left c))
       (with_io (removeOnlineUser gid (userId <$> c_user c)) w).

Definition on_disconnect (sid : string) (c : Conn) (w : World) : World :=
  let w1 := with_io (leave_all_rooms sid) w in
  let w2 := foldl (disconnect_step c) w1 (c_joined c) in
  with_io (fun i => put_conns (delete sid (conns i)) i) w2.

(** An event arriving on connection [sid]; events on a socket that is not
    connected do not exist. *)
Definition handle (sid : string) (ev : ClientEvent) (w : World) : World :=
  match conns (io w) !! sid with
  | None => w
  | Some c =>
      match ev with
      | JoinGroup g => on_join_group sid c g w
      | LeaveGroup g => on_leave_group sid c g w
      | SendMessage g t => on_send_message sid c g t w
      | Typing g => on_typing sid c g w
      | StopTyping g => on_stop_typing sid c g w
      | Disconnect => on_disconnect sid c w
      end
  end.

(** ** The routes that change or remove a document found by its id *)

Inductive Mutation :=
| DeleteMessage                           (** [DELETE /chat/:groupId/messages/:id] *)
| UpdateTask (b : UpdateTaskBody)         (** [PUT /tasks/:groupId/:taskId] *)
| DeleteTask                              (** [DELETE /tasks/:groupId/:taskId] *)
| CompleteTask (completed : Js.Value).    (** [PATCH /tasks/:groupId/:taskId/complete] *)

Definition mutate (op : Mutation) (u : UserClaims) (groupId id : string)
  : World -> Response * World :=
  match op with
  | DeleteMessage =>
      delete_message {| dm_user := u; dm_groupId := groupId; dm_messageId := id |}
  | UpdateTask b =>
      update_task {| ut_user := u; ut_groupId := groupId; ut_taskId := id; ut_body := b |}
  | DeleteTask =>
      delete_task {| tr_user := u; tr_groupId := groupId; tr_taskId := id |}
  | CompleteTask completed =>
      complete_task {| tr_user := u; tr_groupId := groupId; tr_taskId := id |} completed
  end.

(** The group id recorded in the document the route looks up. *)
Definition stored_groupId (op : Mutation) (id : string) (d : Db) : option string :=
  match op with
  | DeleteMessage => msg_groupId <$> messages d !! id
  | _ => t_groupId <$> tasks d !! id
  end.

(** A run of note saves on one group, one request after the other. *)
Fixpoint save_all (groupId : string) (saves : list (UserClaims * string))
  (w : World) : list Response * World :=
  match saves with
  | [] => ([], w)
  | (u, content) :: rest =>
      let '(r, w1) := put_note {| pn_user := u; pn_groupId := groupId;
                                  pn_content := Some content |} w in
      let '(rs, w2) := save_all groupId rest w1 in
      (r :: rs, w2)
  end.

End Server.

(** ** The read routes and the task creation route

    A read route answers either with the data it found (status 200) or with
    an error response. *)

Inductive Read (D : Type) :=
| Found (d : D)
| Refused (r : Response).

Arguments Found {D} d.
Arguments Refused {D} r.

Definition status_of {D} (r : Read D) : nat :=
  match r with
  | Found _ => 200
  | Refused e => status e
  end.

(** [res.status(error.status || 500).json({ message: error.message || fallback })] *)
Definition error_response (fallback : string) (e : JsError) : Response :=
  {| status := match err_status e with
               | Some (S n) => S n
               | _ => 500
               end;
     body := BMessage (if String.eqb (err_message e) "" then fallback
                       else err_message e) |}.

Definition catch_read {D} (fallback : string) (m : M (Read D)) (w : World)
  : Read D * World :=
  match m w with
  | (Ok r, w') => (r, w')
  | (Throw e, w') => (Refused (error_response fallback e), w')
  end.

Definition catch_read_500 {D} (msg : string) (m : M (Read D)) (w : World)
  : Read D * World :=
  match m w with
  | (Ok r, w') => (r, w')
  | (Throw _, w') => (Refused {| status := 500; body := BMessage msg |}, w')
  end.

Definition refuse {D} (st : nat) (msg : string) : M (Read D) :=
  ret (Refused {| status := st; body := BMessage msg |}).

Section OrderByAsc.
Context {A : Type} (key : A -> string).

Fixpoint insert_asc (x : A) (l : list A) : list A :=
  match l with
  | [] => [x]
  | y :: l' =>
      if String.leb (key x) (key y) then x :: l else y :: insert_asc x l'
  end.

Definition orderBy_asc (l : list A) : list A := foldr insert_asc [] l.

End OrderByAsc.

(** [for (let i = 0; i < ids.length; i += 30) chunks.push(ids.slice(i, i + 30))];
    the loop runs at most once per element. *)
Fixpoint chunks_from {A} (rounds : nat) (l : list A) : list (list A) :=
  match rounds with
  | O => []
  | S rounds' =>
      match l with
      | [] => []
      | _ :: _ => take 30 l :: chunks_from rounds' (drop 30 l)
      end
  end.

Definition chunks {A} (l : list A) : list (list A) := chunks_from (length l) l.

Section Routes.
Context (env : Env).

(** *** routes/notes.js: [GET /:groupId] *)

(** The note sent back: the stored document, or the empty default with
    [lastEditedBy] and [lastEditedAt] both [null]. *)
Inductive NoteView :=
| StoredNote (n : Note)
| EmptyNote (groupId : string).

Definition view_content (v : NoteView) : string :=
  match v with
  | StoredNote n => n_content n
  | EmptyNote _ => ""
  end.

Definition get_note (u : UserClaims) (groupId : string)
  : World -> Read NoteView * World :=
  catch_read "Server error fetching note."
    (requireGroupMembership groupId (userId u);;;
     noteSnap <- getNote groupId;;
     match noteSnap with
     | None => ret (Found (EmptyNote groupId))
     | Some n => ret (Found (StoredNote n))
     end).

(** *** routes/tasks.js: [GET /:groupId] and [POST /:groupId] *)

Definition tasks_of (d : Db) (groupId : string) : list Task :=
  orderBy_asc t_createdAt
    (List.filter (fun t => String.eqb (t_groupId t) groupId)
                 (map_to_list (tasks d)).*2).

Definition get_tasks (u : UserClaims) (groupId : string)
  : World -> Read (list Task) * World :=
  catch_read "Server error fetching tasks."
    (requireMember groupId (userId u);;;
     tasksSnap <- gets (fun w => tasks_of (db w) groupId);;
     ret (Found tasksSnap)).

Record CreateTaskReq := {
  ct_user : UserClaims;
  ct_groupId : string;
  ct_title : option string;
  ct_description : option string;
  ct_assignee : option (option UserRef);   (** absent, [null] or an object *)
  ct_dueDate : option string;
}.

Definition validate_task (req : CreateTaskReq) : string * list string :=
  let title := Js.trim (default "" (ct_title req)) in
  (title,
   (if String.eqb title "" then ["Task title is required"] else [])
   ++ (if (200 <? String.length title)%nat
       then ["Title must be 200 characters or less"] else [])
   ++ match ct_description req with
      | Some s => if (1000 <? String.length s)%nat
                  then ["Description must be 1000 characters or less"] else []
      | None => []
      end
   ++ match ct_dueDate req with
      | Some s => if isISO8601 env s then []
                  else ["dueDate must be a valid ISO 8601 date"]
      | None => []
      end).

Definition setTask (id : string) (t : Task) : M unit :=
  modify (with_db (fun d =>
    log_write (WSet Tasks id) (put_tasks (<[id := t]> (tasks d)) d))).

Definition create_task (req : CreateTaskReq) : World -> Response * World :=
  let '(title, errors) := validate_task req in
  match errors with
  | _ :: _ => fun w => ({| status := 400; body := BErrors errors |}, w)
  | [] =>
      catch_status "Server error creating task."
        (requireMember (ct_groupId req) (userId (ct_user req));;;
         id <- newDocId env;;
         now_ <- now env;;
         let task :=
           {| taskId := id; t_groupId := ct_groupId req;
              t_title := Js.trim title;
              t_description := Js.trim (default "" (ct_description req));
              t_assignee := default None (ct_assignee req);
              t_dueDate := ct_dueDate req;
              t_completed := Js.VBool false;
              t_completedAt := None; t_completedBy := None;
              t_createdBy := ref_of (ct_user req);
              t_createdAt := now_; t_updatedAt := now_ |} in
         setTask id task;;;
         respond 201 (BTask "Task created successfully." task))
  end.

(** *** routes/groups.js: [GET /], [GET /:groupId], [GET /:groupId/members] *)

(** [where("groupId", "in", chunk)] *)
Definition groups_in (d : Db) (chunk : list string) : list Group :=
  List.filter (fun g => existsb (String.eqb (g_groupId g)) chunk)
              (map_to_list (groups d)).*2.

Definition list_groups (u : UserClaims) : World -> Read (list Group) * World :=
  catch_read_500 "Server error fetching groups."
    (userSnap <- gets (fun w => users (db w) !! userId u);;
     match userSnap with
     | None => refuse 404 "User not found."
     | Some usr =>
         let groupIds := u_groups usr in
         if (length groupIds =? 0)%nat then ret (Found [])
         else
           groupDocs <- gets (fun w =>
             concat ((fun chunk => groups_in (db w) chunk) <$> chunks groupIds));;
           ret (Found groupDocs)
     end).

Definition get_group (u : UserClaims) (groupId : string)
  : World -> Read Group * World :=
  catch_read_500 "Server error fetching group."
    (groupSnap <- getGroup groupId;;
     match groupSnap with
     | None => refuse 404 "Group not found."
     | Some group =>
         if negb (is_member (userId u) group)
         then refuse 403 "You are not a member of this group."
         else ret (Found group)
     end).

Definition get_members (u : UserClaims) (groupId : string)
  : World -> Read (list Member) * World :=
  catch_read_500 "Server error fetching members."
    (groupSnap <- getGroup groupId;;
     match groupSnap with
     | None => refuse 404 "Group not found."
     | Some group =>
         if negb (is_member (userId u) group)
         then refuse 403 "You are not a member of this group."
         else ret (Found (g_members group))
     end).

(** *** Every route behind the membership gate, by path *)

Inductive GatedRoute :=
| RGetMessages (limit before : option string)
| RPostMessage (txt : option string)
| RGetNote
| RPutNote (content : option string)
| RGetNoteHistory
| RGetTasks
| RCreateTask (title description : option string)
              (assignee : option (option UserRef)) (dueDate : option string)
| RMutate (op : Mutation) (id : string)
| RGetGroup
| RGetMembers.

(** The status the route answers with, whether the answer carries stored
    data, and the world afterwards. *)
Definition serve (route : GatedRoute) (u : UserClaims) (groupId : string)
  (w : World) : nat * bool * World :=
  let of_response (has_data : Body -> bool) (x : Response * World) :=
    (status x.1, has_data (body x.1), x.2) in
  let of_read {D} (x : Read D * World) :=
    (status_of x.1, match x.1 with Found _ => true | Refused _ => false end, x.2) in
  let data (b : Body) :=
    match b with
    | BMessage _ | BErrors _ => false
    | _ => true
    end in
  match route with
  | RGetMessages limit before =>
      of_response data
        (get_messages {| gm_user := u; gm_groupId := groupId;
                         gm_limit := limit; gm_before := before |} w)
  | RPostMessage txt =>
      of_response data
        (post_message env {| pm_user := u; pm_groupId := groupId; pm_text := txt |} w)
  | RGetNote => of_read (get_note u groupId w)
  | RPutNote content =>
      of_response data
        (put_note env {| pn_user := u; pn_groupId := groupId; pn_content := content |} w)
  | RGetNoteHistory => of_response data (get_note_history u groupId w)
  | RGetTasks => of_read (get_tasks u groupId w)
  | RCreateTask title description assignee dueDate =>
      of_response data
        (create_task {| ct_user := u; ct_groupId := groupId; ct_title := title;
                        ct_description := description; ct_assignee := assignee;
                        ct_dueDate := dueDate |} w)
  | RMutate op id => of_response data (mutate env op u groupId id w)
  | RGetGroup => of_read (get_group u groupId w)
  | RGetMembers => of_read (get_members u groupId w)
  end.

End Routes.
(** * Specification vocabulary *)

(** ** Invite codes *)

Definition is_upper_hex (c : ascii) : bool :=
  let n := nat_of_ascii c in
  ((48 <=? n)%nat && (n <=? 57)%nat) || ((65 <=? n)%nat && (n <=? 70)%nat).

Definition valid_invite_code (s : string) : Prop :=
  String.length s = 8%nat /\
  Forall (fun c => is_upper_hex c = true) (list_ascii_of_string s).


(** ** Real-time events *)

(** The events that act on a room in the sender's name. *)
Definition privileged (ev : ClientEvent) : bool :=
  match ev with
  | JoinGroup _ | SendMessage _ _ | Typing _ | StopTyping _ => true
  | LeaveGroup _ | Disconnect => false
  end.

Definition error_to (sid msg : string) : Emission :=
  {| em_target := ToSocket sid; em_recipients := {[ sid ]};
     em_event := EvError msg |}.


(** The handler answers the event with one [error] event to the sender. *)
Definition rejects_with_error (env : Env) (sid : string) (ev : ClientEvent)
  (w : World) : Prop :=
  exists msg, outbox (io (handle env sid ev w)) = outbox (io w) ++ [error_to sid msg].

(** ** Reachable worlds and their invariants *)

(** The worlds the server can be in: it starts empty and moves by one
    request or one socket event at a time.  The routes and callbacks that
    write the group directory, the notes, the archive, the presence roster
    or the connections are listed; every other step (registration, chat,
    tasks) leaves those five untouched and is covered by the last rule. *)
Inductive reachable (env : Env) : World -> Prop :=
| reach_init : reachable env init_world
| reach_create req w :
    reachable env w -> reachable env (create env req w).2
| reach_join req w :
    reachable env w -> reachable env (join env req w).2
| reach_leave u gid w :
    reachable env w -> reachable env (leave env u gid w).2
| reach_put_note req w :
    reachable env w -> reachable env (put_note env req w).2
| reach_connection sid token w :
    reachable env w -> reachable env (on_connection env sid token w)
| reach_event sid ev w :
    reachable env w -> reachable env (handle env sid ev w)
| reach_other w w' :
    reachable env w ->
    groups (db w') = groups (db w) ->
    notes (db w') = notes (db w) ->
    noteHistory (db w') = noteHistory (db w) ->
    onlineUsers (io w') = onlineUsers (io w) ->
    conns (io w') = conns (io w) ->
    reachable env w'.

Definition has_admin (ms : list Member) : Prop :=
  Exists (fun m => m_role m = admin) ms.

(** The data model's invariant on a stored group: one entry per user and at
    least one admin (so at least one member: a group without members is
    deleted, not stored). *)
Definition group_ok (g : Group) : Prop :=
  NoDup (m_userId <$> g_members g) /\ has_admin (g_members g).

(** The member list [leave] writes back when somebody remains. *)
Definition members_after_leave (uid : string) (entry : Member) (ms : list Member)
  : list Member :=
  let remaining := remaining_after uid ms in
  if is_admin entry && negb (existsb is_admin remaining)
  then promote_first remaining else remaining.

(** The member entry [join] appends. *)
Definition joined_member (u : UserClaims) (joinedAt : string) : Member :=
  {| m_userId := userId u; m_email := email u; m_displayName := displayName u;
     m_role := member; m_joinedAt := joinedAt |}.

(** The invite code of the request, as the route compares it. *)
Definition code_matches (req : JoinReq) (g : Group) : Prop :=
  let code := Js.trim (default "" (j_inviteCode req)) in
  code <> "" /\ Js.toUpperCase (g_inviteCode g) = Js.toUpperCase code.

Definition directory_ok (d : Db) : Prop :=
  forall id g, groups d !! id = Some g -> group_ok g.

(** Without a note document there is no archive. *)
Definition archive_ok (d : Db) : Prop :=
  forall gid, notes d !! gid = None -> history_of d gid = [].

(** Every roster entry sits under the user id it carries, and a connection
    only ever joins rooms with a non-empty name. *)
Definition presence_ok (i : Io) : Prop :=
  (forall gid roster k v,
     onlineUsers i !! gid = Some roster -> (k, v) ∈ roster -> ui_userId v = k) /\
  (forall sid c gid, conns i !! sid = Some c -> gid ∈ c_joined c -> gid <> "").

(** ** Message history *)

(** Timestamps are ISO strings, compared as Firestore compares strings. *)
Definition not_after (a b : string) : Prop := String.leb a b = true.

(** The order [orderBy(key, "desc")] leaves its results in. *)
Definition desc_by {A} (key : A -> string) (a b : A) : Prop :=
  not_after (key b) (key a).

Definition newest_first : relation Message := desc_by msg_createdAt.

Definition oldest_first : relation Message := flip newest_first.

(** A message of the group that the cursor, if any, lets through. *)
Definition eligible (d : Db) (gid : string) (before : option string) (m : Message) : Prop :=
  (exists id, messages d !! id = Some m) /\
  msg_groupId m = gid /\
  (Js.truthy before = true -> String.ltb (msg_createdAt m) (default "" before) = true).

(** ** Notes and their archive *)

(** The note a save answered with, if it answered with one. *)
Definition saved_note (r : Response) : option Note :=
  match body r with
  | BNote _ n => Some n
  | _ => None
  end.

(** What an archive entry records of the version it replaces. *)
Definition archived (n : Note) : string * UserRef * string :=
  (n_content n, n_lastEditedBy n, n_lastEditedAt n).

Definition entry_version (e : string * HistoryEntry) : string * UserRef * string :=
  (h_content e.2, h_savedBy e.2, h_savedAt e.2).

(** ** Example worlds *)

Module Ex.

Definition two_digits (n : nat) : string :=
  String (ascii_of_nat (48 + (n / 10) mod 10))
    (String (ascii_of_nat (48 + n mod 10)) EmptyString).

Definition env : Env :=
  {| clock := fun n => String.append "2024-05-01T10:00:" (String.append (two_digits n) ".000Z");
     autoId := fun n => String.append "doc" (two_digits n);
     randomByte := fun n i => Z.of_nat (17 * n + 29 * i + 171);
     isISO8601 := fun _ => true;
     jwtVerify := fun t =>
       if String.eqb t "alice-token"
       then Some {| userId := "alice"; email := "alice@example.org"; displayName := "Alice" |}
       else if String.eqb t "bob-token"
       then Some {| userId := "bob"; email := "bob@example.org"; displayName := "Bob" |}
       else None |}.

Definition alice : UserClaims :=
  {| userId := "alice"; email := "alice@example.org"; displayName := "Alice" |}.

Definition bob : UserClaims :=
  {| userId := "bob"; email := "bob@example.org"; displayName := "Bob" |}.

Definition account (u : UserClaims) : User :=
  {| u_userId := userId u; u_email := email u; u_displayName := displayName u;
     u_groups := []; u_updatedAt := "2024-04-30T09:00:00.000Z" |}.

(** Two registered users and nothing else. *)
Definition registered : World :=
  with_db (put_users (<["alice" := account alice]> (<["bob" := account bob]> ∅)))
          init_world.

(** Alice creates the group [doc00]. *)
Definition created : World :=
  (create env {| cg_user := alice; cg_name := Some "Midterm Prep";
                 cg_description := None |} registered).2.

(** An anonymous connection [s0]; Alice on [s1] and on [s2]; Bob on [s3]. *)
Definition connected : World :=
  on_connection env "s3" (Some "bob-token")
    (on_connection env "s2" (Some "alice-token")
       (on_connection env "s1" (Some "alice-token")
          (on_connection env "s0" None created))).

(** Bob redeems the invite code, in lower case. *)
Definition joined : World :=
  (join env {| j_user := bob; j_groupId := "doc00";
               j_inviteCode := Some "bcd9f613" |} created).2.

(** Alice posts [doc06] to [doc00], then creates a second group [doc09]. *)
Definition chatted : World :=
  (post_message env {| pm_user := alice; pm_groupId := "doc00";
                       pm_text := Some "hello" |} created).2.

Definition two_groups : World :=
  (create env {| cg_user := alice; cg_name := Some "Finals";
                 cg_description := Some "June" |} chatted).2.



Definition three_saves : list (UserClaims * string) :=
  [(alice, "v1"); (alice, "v2"); (alice, "v3")].

Definition homework : Task :=
  {| taskId := "t1"; t_groupId := "doc00"; t_title := "Read chapter 4";
     t_description := ""; t_assignee := None; t_dueDate := None;
     t_completed := Js.VBool false; t_completedAt := None; t_completedBy := None;
     t_createdBy := ref_of alice;
     t_createdAt := "2024-05-01T09:00:00.000Z";
     t_updatedAt := "2024-05-01T09:00:00.000Z" |}.

(** The group [doc00] with one open task. *)
Definition with_task : World :=
  with_db (fun d => put_tasks (<["t1" := homework]> (tasks d)) d) created.

End Ex.
(** ** Vocabulary for the further properties *)

(** The order [orderBy(key, "asc")] leaves its results in. *)
Definition asc_by {A} (key : A -> string) (a b : A) : Prop :=
  not_after (key a) (key b).

(** The fields of a task that only the completion toggle writes, and the
    fields nothing writes after creation. *)
Definition completion_of (t : Task) : Js.Value * option string * option UserRef :=
  (t_completed t, t_completedAt t, t_completedBy t).

Definition origin_of (t : Task) : string * string * UserRef * string :=
  (taskId t, t_groupId t, t_createdBy t, t_createdAt t).


(** What the validation chains of the task routes ask of the optional
    description and due date. *)
Definition task_fields_ok (env : Env) (description dueDate : option string) : Prop :=
  (forall s, description = Some s -> (String.length s <= 1000)%nat) /\
  (forall s, dueDate = Some s -> isISO8601 env s = true).

(** A title the task routes accept, once trimmed. *)
Definition title_ok (title : string) : Prop :=
  title <> "" /\ (String.length title <= 200)%nat.
(** * Properties *)

(** ** Invite codes *)

Lemma hex_digit_lower (n : Z) :
  In (Uuid.hex_digit n) (list_ascii_of_string "0123456789abcdef").
Proof.
  unfold Uuid.hex_digit.
  generalize (Z.to_nat n); intros k.
  do 16 (destruct k as [|k]; [simpl; tauto|]).
  simpl. tauto.
Qed.

Lemma hex_digit_upper (n : Z) : is_upper_hex (Js.upper_char (Uuid.hex_digit n)) = true.
Proof.
  pose proof (hex_digit_lower n) as H. simpl in H.
  repeat (destruct H as [<-|H]; [reflexivity|]). destruct H.
Qed.

Lemma hex_digit_not_dash (n : Z) : Ascii.eqb (Uuid.hex_digit n) "-" = false.
Proof.
  pose proof (hex_digit_lower n) as H. simpl in H.
  repeat (destruct H as [<-|H]; [reflexivity|]). destruct H.
Qed.

Lemma append_cons (c : ascii) (s t : string) :
  String.append (String c s) t = String c (String.append s t).
Proof. reflexivity. Qed.

Lemma append_nil (t : string) : String.append EmptyString t = t.
Proof. reflexivity. Qed.

Lemma stripDashes_hex (n : Z) (s : string) :
  Js.stripDashes (String (Uuid.hex_digit n) s) =
  String (Uuid.hex_digit n) (Js.stripDashes s).
Proof. cbn [Js.stripDashes]. by rewrite hex_digit_not_dash. Qed.

Lemma slice0_cons (n : nat) (c : ascii) (s : string) :
  Js.slice0 (S n) (String c s) = String c (Js.slice0 n s).
Proof. reflexivity. Qed.

Lemma slice0_0 (s : string) : Js.slice0 0 s = EmptyString.
Proof. by destruct s. Qed.

Lemma make_invite_code_eq (rnds : nat -> Z) :
  make_invite_code rnds =
  Js.toUpperCase
    (Uuid.hex_bytes (Uuid.stamped rnds) [0; 1; 2; 3]%nat).
Proof.
  unfold make_invite_code, Uuid.v4, Uuid.hex_bytes, Uuid.byteToHex.
  cbn [foldr String.concat].
  repeat (rewrite append_cons || rewrite append_nil).
  do 8 rewrite stripDashes_hex.
  do 8 rewrite slice0_cons. by rewrite slice0_0.
Qed.

Lemma make_invite_code_valid (rnds : nat -> Z) : valid_invite_code (make_invite_code rnds).
Proof.
  rewrite make_invite_code_eq. 
  unfold Uuid.hex_bytes, Uuid.byteToHex. cbn [foldr].
  repeat (rewrite append_cons || rewrite append_nil). cbn [Js.toUpperCase].
  split; [reflexivity|]. cbn [list_ascii_of_string].
  repeat constructor; apply hex_digit_upper.
Qed.

Lemma upper_hex_not_G_to_Z (c : ascii) :
  is_upper_hex c = true -> ~ (71 <= nat_of_ascii c <= 90)%nat.
Proof.
  unfold is_upper_hex. intros H [Hlo Hhi].
  apply orb_true_iff in H as [H|H]; apply andb_true_iff in H as [H1 H2];
    apply Nat.leb_le in H1; apply Nat.leb_le in H2; lia.
Qed.

Ltac run_monad :=
  unfold catch_500, catch_status, catch_emit, exec, respond, requireMember,
    requireGroupMembership, updateGroup, updateUser, updateTask, addHistory,
    respond_task, getGroup, getMessage, getNote, getTask, setGroup, setMessage,
    setNote, deleteGroup, deleteMessage, deleteTask, emit, now, newDocId,
    drawBytes, not_found, bind, ret, gets, modify, throw in *;
  cbn [fst snd db io tick with_db with_io next_tick log_write
       put_groups put_users put_messages put_notes put_noteHistory put_tasks
       put_conns put_rooms put_onlineUsers put_outbox
       groups users messages notes noteHistory tasks writes
       conns rooms onlineUsers outbox status body] in *.

(** C10. Every invite code group creation produces, be it the one in the
    response or the one in a group document the request stored, is 8
    characters long, each of them a digit or one of the letters A to F; in
    particular none is a letter from G to Z. *)
Theorem create_invite_code (env : Env) (req : CreateGroupReq) (w : World) (g : Group) :
  (exists msg, body (create env req w).1 = BGroup msg g) \/
  (exists id, groups (db (create env req w).2) !! id = Some g /\
              groups (db w) !! id <> Some g) ->
  valid_invite_code (g_inviteCode g) /\
  Forall (fun c => ~ (71 <= nat_of_ascii c <= 90)%nat)
         (list_ascii_of_string (g_inviteCode g)).
Proof.
  intros H.
  assert (valid_invite_code (g_inviteCode g)) as Hv.
  { unfold create in H. destruct (validate_create req) as [name errors].
    destruct errors as [|e errors].
    - run_monad.
      destruct (users (db w) !! userId (cg_user req)) as [u|] eqn:Hu; run_monad.
      + destruct H as [[msg H]|[id [H1 H2]]].
        * inversion H; subst; cbn. apply make_invite_code_valid.
        * destruct (decide (id = autoId env (tick w))) as [->|Hne].
          -- rewrite lookup_insert_eq in H1. inversion H1; subst; cbn.
             apply make_invite_code_valid.
          -- rewrite lookup_insert_ne in H1 by congruence. contradiction.
      + destruct H as [[msg H]|[id [H1 H2]]]; [discriminate|].
        destruct (decide (id = autoId env (tick w))) as [->|Hne].
        * rewrite lookup_insert_eq in H1. inversion H1; subst; cbn.
          apply make_invite_code_valid.
        * rewrite lookup_insert_ne in H1 by congruence. contradiction.
    - cbn in H. destruct H as [[msg H]|[id [H1 H2]]]; [discriminate|contradiction]. }
  split; [exact Hv|].
  destruct Hv as [_ Hv]. eapply Forall_impl; [exact Hv|].
  intros c. apply upper_hex_not_G_to_Z.
Qed.

(** ** Cross-group guard *)

Lemma eqb_false_of_ne (a b : string) : a <> b -> String.eqb a b = false.
Proof. apply String.eqb_neq. Qed.

Ltac rejected := cbn; split; [lia | done].

(** C5. A delete or update of a message or task whose stored group id is not
    the group id of the request path is answered with a 4xx status, and the
    world (store, rooms, emitted events) is left exactly as it was. *)
Theorem cross_group_mutation_rejected (env : Env) (op : Mutation) (u : UserClaims)
  (gid id stored : string) (w : World) :
  stored_groupId op id (db w) = Some stored ->
  stored <> gid ->
  (400 <= status (mutate env op u gid id w).1 < 500)%nat /\
  (mutate env op u gid id w).2 = w.
Proof.
  intros Hs Hne.
  destruct op; cbn [mutate stored_groupId] in *.
  - unfold delete_message; cbn [dm_user dm_groupId dm_messageId]. run_monad.
    destruct (groups (db w) !! gid) as [g|]; [|rejected].
    destruct (is_member (userId u) g); [|rejected].
    run_monad.
    destruct (messages (db w) !! id) as [m|]; [|rejected].
    cbn in Hs. inversion Hs; subst.
    destruct (negb _); [rejected|].
    rewrite (eqb_false_of_ne _ _ Hne). cbn. split; [lia|done].
  - unfold update_task; cbn [ut_user ut_groupId ut_taskId ut_body].
    destruct (validate_update env b) as [title [|e errors]]; [|rejected].
    run_monad.
    destruct (groups (db w) !! gid) as [g|]; [|rejected].
    destruct (is_member (userId u) g); [|rejected].
    run_monad.
    destruct (tasks (db w) !! id) as [t|]; [|rejected].
    cbn in Hs. inversion Hs; subst.
    rewrite (eqb_false_of_ne _ _ Hne). cbn. split; [lia|done].
  - unfold delete_task; cbn [tr_user tr_groupId tr_taskId]. run_monad.
    destruct (groups (db w) !! gid) as [g|]; [|rejected].
    destruct (is_member (userId u) g); [|rejected].
    run_monad.
    destruct (tasks (db w) !! id) as [t|]; [|rejected].
    cbn in Hs. inversion Hs; subst.
    rewrite (eqb_false_of_ne _ _ Hne). cbn. split; [lia|done].
  - unfold complete_task; cbn [tr_user tr_groupId tr_taskId].
    destruct (negb (isBoolean completed)); [rejected|].
    run_monad.
    destruct (groups (db w) !! gid) as [g|]; [|rejected].
    destruct (is_member (userId u) g); [|rejected].
    run_monad.
    destruct (tasks (db w) !! id) as [t|]; [|rejected].
    cbn in Hs. inversion Hs; subst.
    rewrite (eqb_false_of_ne _ _ Hne). cbn. split; [lia|done].
Qed.
(** ** Completion toggle *)

(** A completion toggle that carries a JSON boolean, on an existing task
    of the caller's group, answers 200 and performs exactly one write, an
    update of that task which sets [completed], [completedAt], [completedBy]
    (and [updatedAt]) together: the clock reading and the acting user's id
    and display name when the flag is [true], [null] twice when it is
    [false].  Nothing else in the world changes. *)
Theorem complete_task_writes_three_fields (env : Env) (u : UserClaims)
  (gid id : string) (b : bool) (w : World) (g : Group) (t : Task) :
  groups (db w) !! gid = Some g ->
  is_member (userId u) g = true ->
  tasks (db w) !! id = Some t ->
  t_groupId t = gid ->
  let now_ := clock env (tick w) in
  let t' :=
    {| taskId := taskId t; t_groupId := t_groupId t; t_title := t_title t;
       t_description := t_description t; t_assignee := t_assignee t;
       t_dueDate := t_dueDate t;
       t_completed := Js.VBool b;
       t_completedAt := if b then Some now_ else None;
       t_completedBy :=
         if b then Some {| ref_userId := userId u; ref_displayName := displayName u |}
         else None;
       t_createdBy := t_createdBy t; t_createdAt := t_createdAt t;
       t_updatedAt := now_ |} in
  let r := (complete_task env {| tr_user := u; tr_groupId := gid; tr_taskId := id |}
                          (Js.VBool b) w).1 in
  let w' := (complete_task env {| tr_user := u; tr_groupId := gid; tr_taskId := id |}
                           (Js.VBool b) w).2 in
  r = {| status := 200;
         body := BTask (if b then "Task marked as complete."
                        else "Task marked as incomplete.") t' |} /\
  w' = with_db (fun d => log_write (WUpdate Tasks id)
                            (put_tasks (<[id := t']> (tasks d)) d))
               (next_tick w).
Proof.
  intros Hg Hm Ht <-.
  unfold complete_task; cbn [tr_user tr_groupId tr_taskId isBoolean negb].
  run_monad. rewrite Hg, Hm. run_monad. rewrite Ht.
  rewrite String.eqb_refl. cbn [negb]. run_monad. rewrite Ht. run_monad.
  rewrite lookup_insert_eq. cbn [fst snd db tasks writes log_write put_tasks].
  unfold mark_completed, ref_of; cbn [Js.value_truthy].
  by destruct b.
Qed.
(** ** Events on a connection without identity *)

(** C6, as stated, fails: a [typing] event on the anonymous connection [s0]
    leaves the outbox empty, so no [error] event answers it. *)
Lemma typing_unauthenticated_is_silent :
  (exists c, conns (io Ex.connected) !! "s0" = Some c /\ c_user c = None) /\
  privileged (Typing (Some "doc00")) = true /\
  ~ rejects_with_error Ex.env "s0" (Typing (Some "doc00")) Ex.connected.
Proof.
  split; [|split].
  - eexists. split; [vm_compute; reflexivity | reflexivity].
  - reflexivity.
  - intros [msg H]. vm_compute in H. discriminate H.
Qed.

(** C6, amended. On a connection without identity none of the four events
    touches the store, the rooms, the presence roster or the connections
    (the socket stays connected and joins nothing); [join_group] and
    [send_message] are answered with one [error] event "Authentication
    required." sent to that socket alone, [typing] and [stop_typing] are
    dropped without any emission. *)
Theorem unauthenticated_event_outcome (env : Env) (sid : string) (ev : ClientEvent)
  (w : World) (c : Conn) :
  conns (io w) !! sid = Some c ->
  c_user c = None ->
  privileged ev = true ->
  let w' := handle env sid ev w in
  db w' = db w /\
  conns (io w') = conns (io w) /\
  rooms (io w') = rooms (io w) /\
  onlineUsers (io w') = onlineUsers (io w) /\
  outbox (io w') =
    outbox (io w) ++
    match ev with
    | JoinGroup _ | SendMessage _ _ => [error_to sid "Authentication required."]
    | _ => []
    end.
Proof.
  intros Hc Hu Hp. unfold handle. rewrite Hc.
  destruct ev; try discriminate Hp; cbn zeta.
  - unfold on_join_group. rewrite Hu. by run_monad.
  - unfold on_send_message. rewrite Hu. by run_monad.
  - unfold on_typing. rewrite Hu. by rewrite app_nil_r.
  - unfold on_stop_typing. rewrite Hu. by rewrite app_nil_r.
Qed.

Lemma unauthenticated_event_outcome_witness :
  outbox (io (handle Ex.env "s0" (SendMessage (Some "doc00") (Some "hi")) Ex.connected)) =
  [error_to "s0" "Authentication required."].
Proof.
  pose proof (unauthenticated_event_outcome Ex.env "s0"
                (SendMessage (Some "doc00") (Some "hi")) Ex.connected
                {| c_user := None; c_joined := [] |}) as H.
  cbv zeta in H.
  destruct H as (_ & _ & _ & _ & H); [vm_compute; reflexivity | reflexivity | reflexivity |].
  rewrite H. vm_compute. reflexivity.
Defined.
(** ** What each step leaves alone *)

Ltac crunch :=
  repeat (run_monad; cbn [fst snd] in *; try case_match; simplify_eq);
  run_monad; cbn [fst snd] in *.

Lemma create_frame (env : Env) (req : CreateGroupReq) (w : World) :
  notes (db (create env req w).2) = notes (db w) /\
  noteHistory (db (create env req w).2) = noteHistory (db w) /\
  io (create env req w).2 = io w.
Proof. unfold create. crunch; done. Qed.

Lemma join_frame (env : Env) (req : JoinReq) (w : World) :
  notes (db (join env req w).2) = notes (db w) /\
  noteHistory (db (join env req w).2) = noteHistory (db w) /\
  io (join env req w).2 = io w.
Proof. unfold join. crunch; done. Qed.

Lemma leave_frame (env : Env) (u : UserClaims) (gid : string) (w : World) :
  notes (db (leave env u gid w).2) = notes (db w) /\
  noteHistory (db (leave env u gid w).2) = noteHistory (db w) /\
  io (leave env u gid w).2 = io w.
Proof. unfold leave. crunch; done. Qed.

Lemma put_note_frame (env : Env) (req : PutNoteReq) (w : World) :
  groups (db (put_note env req w).2) = groups (db w) /\
  onlineUsers (io (put_note env req w).2) = onlineUsers (io w) /\
  conns (io (put_note env req w).2) = conns (io w).
Proof. unfold put_note. crunch; done. Qed.

Lemma on_connection_frame (env : Env) (sid : string) (token : option string) (w : World) :
  db (on_connection env sid token w) = db w /\
  onlineUsers (io (on_connection env sid token w)) = onlineUsers (io w).
Proof. unfold on_connection. crunch; done. Qed.

Lemma disconnect_fold_db (l : list string) (c : Conn) (w : World) :
  db (foldl (disconnect_step c) w l)
  = db w.
Proof.
  revert w. induction l as [|g l IH]; intros w; [done|].
  cbn [foldl]. rewrite IH. unfold disconnect_step. by run_monad.
Qed.

Lemma handle_db (env : Env) (sid : string) (ev : ClientEvent) (w : World) :
  groups (db (handle env sid ev w)) = groups (db w) /\
  users (db (handle env sid ev w)) = users (db w) /\
  notes (db (handle env sid ev w)) = notes (db w) /\
  noteHistory (db (handle env sid ev w)) = noteHistory (db w) /\
  tasks (db (handle env sid ev w)) = tasks (db w).
Proof.
  unfold handle. destruct (conns (io w) !! sid) as [c|]; [|done].
  destruct ev.
  - unfold on_join_group. crunch; done.
  - unfold on_leave_group. crunch; done.
  - unfold on_send_message. crunch; done.
  - unfold on_typing. crunch; done.
  - unfold on_stop_typing. crunch; done.
  - unfold on_disconnect. cbn [db with_io]. rewrite disconnect_fold_db. done.
Qed.
(** ** The presence invariant *)

Lemma presence_ok_ext (i i' : Io) :
  onlineUsers i' = onlineUsers i -> conns i' = conns i ->
  presence_ok i -> presence_ok i'.
Proof. unfold presence_ok. intros -> ->. done. Qed.

Lemma elem_of_filter_bool {A} (f : A -> bool) (l : list A) (x : A) :
  x ∈ List.filter f l <-> x ∈ l /\ f x = true.
Proof. rewrite !list_elem_of_In. apply filter_In. Qed.

Lemma map_set_keyed (k : string) (v : UserInfo) (l : list (string * UserInfo)) :
  ui_userId v = k ->
  (forall k' v', (k', v') ∈ l -> ui_userId v' = k') ->
  forall k' v', (k', v') ∈ map_set k v l -> ui_userId v' = k'.
Proof.
  intros Hv Hl k' v'. unfold map_set.
  destruct (existsb _ l).
  - intros ((k0 & v0) & Heq & Hin)%list_elem_of_fmap. cbn in Heq.
    destruct (String.eqb k0 k); simplify_eq; eauto.
  - intros [Hin | [= -> ->]%list_elem_of_singleton]%elem_of_app; eauto.
Qed.

Lemma presence_ok_add (gid : string) (v : UserInfo) (i : Io) :
  presence_ok i -> presence_ok (addOnlineUser gid v i).
Proof.
  intros [Hk Hj]. split; [|exact Hj].
  intros g roster k' v'. unfold addOnlineUser; cbn [onlineUsers put_onlineUsers].
  destruct (decide (g = gid)) as [->|Hne].
  - rewrite lookup_insert_eq. intros [= <-]. apply map_set_keyed; [done|].
    destruct (onlineUsers i !! gid) as [r|] eqn:Hr; cbn.
    + intros ? ?. by apply (Hk gid).
    + intros ? ? []%not_elem_of_nil.
  - rewrite lookup_insert_ne by done. apply Hk.
Qed.

Lemma presence_ok_remove (gid : string) (uid : option string) (i : Io) :
  presence_ok i -> presence_ok (removeOnlineUser gid uid i).
Proof.
  intros [Hk Hj]. unfold removeOnlineUser.
  destruct (onlineUsers i !! gid) as [r|] eqn:Hr; [|done].
  destruct (length _ =? 0)%nat; (split; [|exact Hj]);
    cbn [onlineUsers put_onlineUsers]; intros g roster k' v'.
  - destruct (decide (g = gid)) as [->|Hne].
    + by rewrite lookup_delete_eq.
    + rewrite lookup_delete_ne by done. apply Hk.
  - destruct (decide (g = gid)) as [->|Hne].
    + rewrite lookup_insert_eq. intros [= <-] Hin. apply (Hk gid r); [done|].
      destruct uid as [u|]; cbn in Hin; [|done].
      by apply elem_of_filter_bool in Hin as [? _].
    + rewrite lookup_insert_ne by done. apply Hk.
Qed.

Lemma presence_ok_set_joined (sid : string) (f : list string -> list string) (i : Io) :
  (forall l gid, gid ∈ f l -> gid ∈ l \/ gid <> "") ->
  presence_ok i -> presence_ok (set_joined sid f i).
Proof.
  intros Hf [Hk Hj]. unfold set_joined.
  destruct (conns i !! sid) as [c|] eqn:Hc; [|done].
  split; [exact Hk|]. cbn [conns put_conns]. intros s c' gid.
  destruct (decide (s = sid)) as [->|Hne].
  - rewrite lookup_insert_eq. intros [= <-]. cbn [c_joined]. intros Hin.
    destruct (Hf _ _ Hin) as [Hin'|Hne]; [|done]. by apply (Hj sid c).
  - rewrite lookup_insert_ne by done. apply Hj.
Qed.

Lemma set_add_elem (x y : string) (l : list string) :
  y ∈ set_add x l -> y ∈ l \/ y = x.
Proof.
  unfold set_add. destruct (existsb _ l); [by left|].
  intros [?| ->%list_elem_of_singleton]%elem_of_app; auto.
Qed.

Lemma set_delete_elem (x y : string) (l : list string) :
  y ∈ set_delete x l <-> y ∈ l /\ y <> x.
Proof.
  unfold set_delete. rewrite elem_of_filter_bool, negb_true_iff, String.eqb_neq. done.
Qed.

Lemma truthy_nonempty (o : option string) :
  Js.truthy o = true -> default "" o <> "".
Proof.
  destruct o as [s|]; cbn; [|done]. by intros ?%negb_true_iff%String.eqb_neq.
Qed.

Lemma presence_ok_disconnect_fold (l : list string) (c : Conn) (w : World) :
  presence_ok (io w) ->
  presence_ok (io (foldl (disconnect_step c) w l)).
Proof.
  revert w. induction l as [|g l IH]; intros w Hw; [done|].
  cbn [foldl]. apply IH. unfold disconnect_step. run_monad.
  eapply presence_ok_ext; [| |apply (presence_ok_remove g (userId <$> c_user c)), Hw]; done.
Qed.

Lemma presence_ok_drop_conn (sid : string) (i : Io) :
  presence_ok i -> presence_ok (put_conns (delete sid (conns i)) i).
Proof.
  intros [Hk Hj]. split; [exact Hk|]. cbn [conns put_conns]. intros s c gid.
  destruct (decide (s = sid)) as [->|Hne].
  - by rewrite lookup_delete_eq.
  - rewrite lookup_delete_ne by done. apply Hj.
Qed.

Lemma handle_presence_ok (env : Env) (sid : string) (ev : ClientEvent) (w : World) :
  presence_ok (io w) -> presence_ok (io (handle env sid ev w)).
Proof.
  intros Hw. unfold handle. destruct (conns (io w) !! sid) as [c|] eqn:Hc; [|done].
  destruct ev.
  - unfold on_join_group.
    destruct (c_user c) as [u|]; [|by run_monad; eapply presence_ok_ext].
    destruct (negb (Js.truthy groupId)) eqn:Hg; [by run_monad; eapply presence_ok_ext|].
    apply negb_false_iff, truthy_nonempty in Hg.
    run_monad. destruct (groups (db w) !! default "" groupId) as [g|];
      [|by run_monad; eapply presence_ok_ext].
    destruct (negb (is_member (userId u) g)); [by run_monad; eapply presence_ok_ext|].
    run_monad. eapply presence_ok_ext; [reflexivity|reflexivity|].
    eapply presence_ok_ext; [reflexivity|reflexivity|].
    apply presence_ok_add, presence_ok_set_joined.
    { intros l gid [?| ->]%set_add_elem; auto. }
    by eapply presence_ok_ext.
  - unfold on_leave_group. destruct (negb (Js.truthy groupId)); [done|].
    run_monad. eapply presence_ok_ext; [reflexivity|reflexivity|].
    apply presence_ok_remove, presence_ok_set_joined.
    { intros l gid [? _]%set_delete_elem; auto. }
    unfold room_leave. destruct (rooms (io w) !! _); [|done]. by eapply presence_ok_ext.
  - unfold on_send_message. crunch; by eapply presence_ok_ext.
  - unfold on_typing. crunch; by eapply presence_ok_ext.
  - unfold on_stop_typing. crunch; by eapply presence_ok_ext.
  - unfold on_disconnect. cbn [io with_io].
    apply presence_ok_drop_conn, presence_ok_disconnect_fold.
    cbn [io with_io]. by eapply presence_ok_ext.
Qed.
(** ** The group directory *)

Lemma is_member_spec (uid : string) (g : Group) :
  is_member uid g = true <-> uid ∈ m_userId <$> g_members g.
Proof.
  unfold is_member. rewrite existsb_exists, list_elem_of_fmap.
  split.
  - intros (m & Hin & Heq). exists m. apply String.eqb_eq in Heq.
    by rewrite <- list_elem_of_In in Hin.
  - intros (m & -> & Hin). exists m. rewrite String.eqb_refl.
    by rewrite <- list_elem_of_In.
Qed.

Lemma is_member_false (uid : string) (g : Group) :
  is_member uid g = false <-> uid ∉ m_userId <$> g_members g.
Proof. rewrite <- is_member_spec. by destruct (is_member uid g). Qed.

Lemma is_admin_spec (m : Member) : is_admin m = true <-> m_role m = admin.
Proof. unfold is_admin. by rewrite bool_decide_eq_true. Qed.

Lemma has_admin_existsb (ms : list Member) :
  existsb is_admin ms = true <-> has_admin ms.
Proof.
  unfold has_admin. rewrite existsb_exists, Exists_exists.
  split; intros (m & Hin & Hm); exists m.
  - by rewrite <- list_elem_of_In, <- is_admin_spec in *.
  - by rewrite <- list_elem_of_In, <- is_admin_spec in *.
Qed.

Lemma create_groups (env : Env) (req : CreateGroupReq) (w : World) :
  groups (db (create env req w).2) = groups (db w) \/
  exists g, groups (db (create env req w).2) = <[autoId env (tick w) := g]> (groups (db w)) /\
            g_members g = [ {| m_userId := userId (cg_user req);
                               m_email := email (cg_user req);
                               m_displayName := displayName (cg_user req);
                               m_role := admin;
                               m_joinedAt := clock env (S (S (tick w))) |} ].
Proof. unfold create. crunch; eauto. Qed.

Lemma join_groups (env : Env) (req : JoinReq) (w : World) :
  groups (db (join env req w).2) = groups (db w) \/
  exists g, groups (db w) !! j_groupId req = Some g /\
            is_member (userId (j_user req)) g = false /\
            groups (db (join env req w).2) =
              <[j_groupId req :=
                  with_members (g_members g ++ [joined_member (j_user req) (clock env (tick w))])
                               (clock env (S (tick w))) g]> (groups (db w)).
Proof.
  unfold join.
  destruct (String.eqb _ ""); [by left|]. run_monad.
  destruct (groups (db w) !! j_groupId req) as [g|] eqn:Hg; [|by left].
  destruct (negb _); [by left|].
  destruct (is_member (userId (j_user req)) g) eqn:Hm; [by left|].
  right. exists g. split; [done|]. split; [done|].
  run_monad. rewrite Hg. run_monad.
  assert (arrayUnion (joined_member (j_user req) (clock env (tick w))) (g_members g)
          = g_members g ++ [joined_member (j_user req) (clock env (tick w))]) as Hau.
  { unfold arrayUnion. case_decide as Hin; [|done].
    apply is_member_false in Hm. exfalso. apply Hm.
    apply list_elem_of_fmap. eexists. split; [|exact Hin]. done. }
  unfold joined_member in Hau. rewrite Hau.
  crunch; done.
Qed.
Lemma leave_groups (env : Env) (u : UserClaims) (gid : string) (w : World) :
  groups (db (leave env u gid w).2) =
  match groups (db w) !! gid with
  | None => groups (db w)
  | Some g =>
      match List.find (fun m => String.eqb (m_userId m) (userId u)) (g_members g) with
      | None => groups (db w)
      | Some entry =>
          if (length (remaining_after (userId u) (g_members g)) =? 0)%nat
          then delete gid (groups (db w))
          else <[gid := with_members (members_after_leave (userId u) entry (g_members g))
                                     (clock env (tick w)) g]> (groups (db w))
      end
  end.
Proof.
  unfold leave, members_after_leave. run_monad.
  destruct (groups (db w) !! gid) as [g|] eqn:Hg; [|done].
  destruct (List.find _ _) as [entry|]; [|done].
  destruct (length _ =? 0)%nat.
  - crunch; done.
  - run_monad. rewrite Hg. crunch; done.
Qed.

Lemma remaining_after_elem (uid : string) (ms : list Member) (m : Member) :
  m ∈ remaining_after uid ms <-> m ∈ ms /\ m_userId m <> uid.
Proof.
  unfold remaining_after.
  by rewrite elem_of_filter_bool, negb_true_iff, String.eqb_neq.
Qed.

Lemma remaining_after_ids (uid : string) (ms : list Member) :
  NoDup (m_userId <$> ms) -> NoDup (m_userId <$> remaining_after uid ms).
Proof.
  induction ms as [|m ms IH]; cbn; [done|].
  intros [Hm Hms]%NoDup_cons. destruct (negb _); cbn; [|by auto].
  apply NoDup_cons. split; [|by auto].
  intros (m' & Heq & [Hin _]%remaining_after_elem)%list_elem_of_fmap.
  apply Hm, list_elem_of_fmap. eauto.
Qed.

Lemma promote_first_ids (ms : list Member) :
  m_userId <$> promote_first ms = m_userId <$> ms.
Proof. by destruct ms. Qed.

Lemma find_entry (uid : string) (ms : list Member) (entry : Member) :
  List.find (fun m => String.eqb (m_userId m) uid) ms = Some entry ->
  entry ∈ ms /\ m_userId entry = uid.
Proof.
  intros [Hin Heq]%find_some. split; [by apply list_elem_of_In|].
  by apply String.eqb_eq.
Qed.

Lemma same_id_same_entry (ms : list Member) (a b : Member) :
  NoDup (m_userId <$> ms) -> a ∈ ms -> b ∈ ms -> m_userId a = m_userId b -> a = b.
Proof.
  induction ms as [|m ms IH]; cbn; [by intros _ ?%not_elem_of_nil|].
  intros [Hm Hms]%NoDup_cons [->|Ha]%elem_of_cons [->|Hb]%elem_of_cons Heq; auto.
  - exfalso. apply Hm. rewrite Heq. apply list_elem_of_fmap. eauto.
  - exfalso. apply Hm. rewrite <- Heq. apply list_elem_of_fmap. eauto.
Qed.

Lemma members_after_leave_ok (uid : string) (entry : Member) (ms : list Member) :
  NoDup (m_userId <$> ms) -> has_admin ms ->
  List.find (fun m => String.eqb (m_userId m) uid) ms = Some entry ->
  remaining_after uid ms <> [] ->
  NoDup (m_userId <$> members_after_leave uid entry ms) /\
  has_admin (members_after_leave uid entry ms).
Proof.
  intros Hnd Hadm [Hin Hid]%find_entry Hne. unfold members_after_leave.
  destruct (existsb is_admin (remaining_after uid ms)) eqn:Hother.
  - rewrite andb_false_r. split; [by apply remaining_after_ids|].
    by apply has_admin_existsb.
  - rewrite andb_true_r. destruct (is_admin entry) eqn:Hentry.
    + split; [rewrite promote_first_ids; by apply remaining_after_ids|].
      destruct (remaining_after uid ms) as [|m rest]; [done|].
      apply Exists_cons_hd. reflexivity.
    + split; [by apply remaining_after_ids|].
      apply Exists_exists in Hadm as (a & Ha & Hrole).
      assert (a ∈ remaining_after uid ms) as Har.
      { apply remaining_after_elem. split; [done|]. intros Heq.
        assert (a = entry) as -> by (eapply same_id_same_entry; eauto; congruence).
        apply is_admin_spec in Hrole. congruence. }
      exfalso. apply not_true_iff_false in Hother. apply Hother.
      apply has_admin_existsb, Exists_exists. by exists a.
Qed.

Lemma directory_ok_insert (id : string) (g : Group) (d : gmap string Group) :
  group_ok g ->
  (forall i x, d !! i = Some x -> group_ok x) ->
  forall i x, <[id := g]> d !! i = Some x -> group_ok x.
Proof.
  intros Hg Hd i x. destruct (decide (i = id)) as [->|Hne].
  - rewrite lookup_insert_eq. by intros [= <-].
  - rewrite lookup_insert_ne by done. apply Hd.
Qed.

Lemma create_directory_ok (env : Env) (req : CreateGroupReq) (w : World) :
  directory_ok (db w) -> directory_ok (db (create env req w).2).
Proof.
  intros Hw. unfold directory_ok.
  destruct (create_groups env req w) as [-> | (g & -> & Hms)]; [done|].
  apply directory_ok_insert; [|done].
  unfold group_ok. rewrite Hms. split.
  - cbn. apply NoDup_singleton.
  - apply Exists_cons_hd. reflexivity.
Qed.

Lemma join_directory_ok (env : Env) (req : JoinReq) (w : World) :
  directory_ok (db w) -> directory_ok (db (join env req w).2).
Proof.
  intros Hw. unfold directory_ok.
  destruct (join_groups env req w) as [-> | (g & Hg & Hm & ->)]; [done|].
  apply directory_ok_insert; [|done].
  destruct (Hw _ _ Hg) as [Hnd Hadm]. unfold group_ok. cbn [g_members with_members].
  split.
  - rewrite fmap_app. apply NoDup_app. split; [done|]. split; [|apply NoDup_singleton].
    intros x Hx [= ->]%list_elem_of_singleton. by apply is_member_false in Hm.
  - unfold has_admin. apply Exists_app. by left.
Qed.

Lemma leave_directory_ok (env : Env) (u : UserClaims) (gid : string) (w : World) :
  directory_ok (db w) -> directory_ok (db (leave env u gid w).2).
Proof.
  intros Hw. unfold directory_ok. rewrite leave_groups.
  destruct (groups (db w) !! gid) as [g|] eqn:Hg; [|done].
  destruct (List.find _ _) as [entry|] eqn:Hf; [|done].
  destruct (length _ =? 0)%nat eqn:Hlen.
  - intros i x. destruct (decide (i = gid)) as [->|Hne].
    + by rewrite lookup_delete_eq.
    + rewrite lookup_delete_ne by done. apply Hw.
  - apply directory_ok_insert; [|done].
    destruct (Hw _ _ Hg) as [Hnd Hadm]. unfold group_ok. cbn [g_members with_members].
    apply members_after_leave_ok; try done.
    intros Hnil. rewrite Hnil in Hlen. discriminate.
Qed.
(** ** Notes *)

Lemma put_note_rejected (env : Env) (req : PutNoteReq) (w : World) :
  status (put_note env req w).1 <> 200%nat -> (put_note env req w).2 = w.
Proof. unfold put_note. crunch; done. Qed.

Lemma put_note_saved (env : Env) (req : PutNoteReq) (w : World) :
  status (put_note env req w).1 = 200%nat ->
  exists content n,
    pn_content req = Some content /\
    saved_note (put_note env req w).1 = Some n /\
    n_content n = content /\
    n_lastEditedBy n = ref_of (pn_user req) /\
    notes (db (put_note env req w).2) = <[pn_groupId req := n]> (notes (db w)) /\
    groups (db (put_note env req w).2) = groups (db w) /\
    match notes (db w) !! pn_groupId req with
    | None => noteHistory (db (put_note env req w).2) = noteHistory (db w)
    | Some prev =>
        exists id e,
          entry_version (id, e) = archived prev /\
          noteHistory (db (put_note env req w).2) =
            <[pn_groupId req := history_of (db w) (pn_groupId req) ++ [(id, e)]]>
              (noteHistory (db w))
    end.
Proof.
  unfold put_note. destruct (pn_content req) as [content|]; [|by cbn].
  run_monad.
  destruct (groups (db w) !! pn_groupId req) as [g|]; [|by cbn].
  destruct (is_member _ g); [|by cbn].
  run_monad. intros _.
  destruct (notes (db w) !! pn_groupId req) as [prev|] eqn:Hp; run_monad.
  - eexists _, _. repeat (split; [reflexivity|]). eexists _, _. split; [|reflexivity]. reflexivity.
  - eexists _, _. repeat (split; [reflexivity|]). reflexivity.
Qed.

Lemma put_note_archive_ok (env : Env) (req : PutNoteReq) (w : World) :
  archive_ok (db w) -> archive_ok (db (put_note env req w).2).
Proof.
  intros Hw.
  destruct (decide (status (put_note env req w).1 = 200%nat)) as [Hok|Hno];
    [|by rewrite put_note_rejected].
  destruct (put_note_saved env req w Hok) as (content & n & _ & _ & _ & _ & Hn & _ & Hh).
  intros gid. unfold history_of. rewrite Hn.
  destruct (decide (gid = pn_groupId req)) as [->|Hne].
  - by rewrite lookup_insert_eq.
  - rewrite lookup_insert_ne by done. intros Hnone.
    destruct (notes (db w) !! pn_groupId req).
    + destruct Hh as (id & e & _ & ->). rewrite lookup_insert_ne by done. by apply Hw.
    + rewrite Hh. by apply Hw.
Qed.

(** ** Reachable worlds satisfy the invariants *)

Lemma reachable_invariants (env : Env) (w : World) :
  reachable env w ->
  directory_ok (db w) /\ archive_ok (db w) /\ presence_ok (io w).
Proof.
  induction 1 as [|req w _ (Hd & Ha & Hp)|req w _ (Hd & Ha & Hp)
                  |u gid w _ (Hd & Ha & Hp)|req w _ (Hd & Ha & Hp)
                  |sid token w _ (Hd & Ha & Hp)|sid ev w _ (Hd & Ha & Hp)
                  |w w' _ (Hd & Ha & Hp) Hg Hn Hh Ho Hc].
  - split; [|split].
    + intros id g. cbn. by rewrite lookup_empty.
    + intros gid _. unfold history_of. cbn. by rewrite lookup_empty.
    + split; cbn; intros *; by rewrite lookup_empty.
  - destruct (create_frame env req w) as (Hn & Hh & Hi).
    split; [by apply create_directory_ok|]. split; [|by rewrite Hi].
    intros gid. unfold history_of. rewrite Hn, Hh. apply Ha.
  - destruct (join_frame env req w) as (Hn & Hh & Hi).
    split; [by apply join_directory_ok|]. split; [|by rewrite Hi].
    intros gid. unfold history_of. rewrite Hn, Hh. apply Ha.
  - destruct (leave_frame env u gid w) as (Hn & Hh & Hi).
    split; [by apply leave_directory_ok|]. split; [|by rewrite Hi].
    intros g. unfold history_of. rewrite Hn, Hh. apply Ha.
  - destruct (put_note_frame env req w) as (Hg & Ho & Hc).
    split; [unfold directory_ok; by rewrite Hg|].
    split; [by apply put_note_archive_ok|].
    by eapply presence_ok_ext.
  - destruct (on_connection_frame env sid token w) as (Hdb & Ho).
    rewrite Hdb. split; [done|]. split; [done|].
    destruct Hp as [Hk Hj]. split; [by rewrite Ho|].
    unfold on_connection. intros s c gid.
    assert (forall user,
      conns (io (with_io (fun i => put_conns
          (<[sid := {| c_user := user; c_joined := [] |}]> (conns i)) i) w)) !! s = Some c ->
      gid ∈ c_joined c -> gid <> "") as Hopen.
    { intros user. cbn. destruct (decide (s = sid)) as [->|Hne].
      - rewrite lookup_insert_eq. intros [= <-]. cbn. by intros ?%not_elem_of_nil.
      - rewrite lookup_insert_ne by done. apply Hj. }
    cbn zeta. repeat case_match; eauto.
  - destruct (handle_db env sid ev w) as (Hg & _ & Hn & Hh & _).
    split; [unfold directory_ok; by rewrite Hg|].
    split; [|by apply handle_presence_ok].
    intros gid. unfold history_of. rewrite Hn, Hh. apply Ha.
  - split; [unfold directory_ok; by rewrite Hg|].
    split; [|by eapply presence_ok_ext].
    intros gid. unfold history_of. rewrite Hn, Hh. apply Ha.
Qed.
(** ** A run of saves *)

Lemma history_of_insert (d : Db) (gid : string) (v : gmap string (list (string * HistoryEntry)))
  (l : list (string * HistoryEntry)) :
  noteHistory d = <[gid := l]> v -> history_of d gid = l.
Proof. unfold history_of. intros ->. by rewrite lookup_insert_eq. Qed.

Lemma save_all_archive (env : Env) (gid : string) (saves : list (UserClaims * string)) :
  forall (w : World) (n0 : Note),
  notes (db w) !! gid = Some n0 ->
  Forall (fun r => status r = 200%nat) (save_all env gid saves w).1 ->
  let written := omap saved_note (save_all env gid saves w).1 in
  entry_version <$> history_of (db (save_all env gid saves w).2) gid =
    (entry_version <$> history_of (db w) gid)
    ++ take (length saves) (archived n0 :: (archived <$> written)) /\
  n_content <$> written = snd <$> saves /\
  n_lastEditedBy <$> written = (fun s => ref_of s.1) <$> saves.
Proof.
  induction saves as [|[u c] rest IH]; intros w n0 Hn0 Hok; cbn zeta.
  - cbn. by rewrite app_nil_r.
  - cbn [save_all] in *.
    pose proof (put_note_saved env {| pn_user := u; pn_groupId := gid;
                                      pn_content := Some c |} w) as Hs.
    destruct (put_note env _ w) as [r w1].
    destruct (save_all env gid rest w1) as [rs w2] eqn:Hrest.
    cbn [fst snd] in *. apply Forall_cons in Hok as [Hr Hrs].
    destruct (Hs Hr) as (c' & n & [= <-] & Hsn & Hc & Hby & Hnotes & _ & Hh).
    cbn [pn_groupId pn_user] in *. rewrite Hn0 in Hh.
    destruct Hh as (id & e & He & Hh).
    specialize (IH w1 n). rewrite Hrest in IH. cbn [fst snd] in IH.
    destruct IH as (IH1 & IH2 & IH3); [by rewrite Hnotes, lookup_insert_eq|done|].
    cbn [omap list_omap]. rewrite Hsn. cbn [fmap list_fmap length take].
    rewrite IH1, (history_of_insert _ _ _ _ Hh), fmap_app, <- app_assoc.
    cbn [fmap list_fmap app]. rewrite He.
    split; [done|]. split; cbn; f_equal; done.
Qed.

(** C2. From a reachable world in which the group has no note document, a
    run of N >= 1 saves that all succeed leaves exactly N-1 archive entries,
    oldest first; the k-th entry holds the content, the editor and the
    edit time that the k-th save wrote.  The first save archives nothing. *)
Theorem note_history_after_saves (env : Env) (gid : string)
  (saves : list (UserClaims * string)) (w : World) :
  reachable env w ->
  notes (db w) !! gid = None ->
  saves <> [] ->
  Forall (fun r => status r = 200%nat) (save_all env gid saves w).1 ->
  let hist := (history_of (db (save_all env gid saves w).2) gid).*2 in
  let written := omap saved_note (save_all env gid saves w).1 in
  length hist = (length saves - 1)%nat /\
  h_content <$> hist = take (length saves - 1) (snd <$> saves) /\
  h_savedBy <$> hist = take (length saves - 1) ((fun s => ref_of s.1) <$> saves) /\
  h_savedAt <$> hist = take (length saves - 1) (n_lastEditedAt <$> written) /\
  n_content <$> written = snd <$> saves.
Proof.
  intros Hreach Hnone Hne Hok.
  destruct (reachable_invariants env w Hreach) as (_ & Harch & _).
  destruct saves as [|[u c] rest]; [done|]. clear Hne.
  cbn [save_all] in *.
  pose proof (put_note_saved env {| pn_user := u; pn_groupId := gid;
                                    pn_content := Some c |} w) as Hs.
  destruct (put_note env _ w) as [r w1].
  pose proof (save_all_archive env gid rest w1) as Hrun.
  destruct (save_all env gid rest w1) as [rs w2].
  cbn [fst snd] in *. apply Forall_cons in Hok as [Hr Hrs].
  destruct (Hs Hr) as (c' & n & [= <-] & Hsn & Hc & Hby & Hnotes & _ & Hh).
  cbn [pn_groupId pn_user] in *. rewrite Hnone in Hh.
  destruct (Hrun n) as (H1 & H2 & H3); [by rewrite Hnotes, lookup_insert_eq|done|].
  assert (history_of (db w1) gid = []) as Hempty.
  { unfold history_of. rewrite Hh. by apply Harch. }
  rewrite Hempty in H1. cbn [fmap list_fmap app] in H1.
  cbn [omap list_omap]. rewrite Hsn. cbn [length].
  replace (S (length rest) - 1)%nat with (length rest) by lia.
  set (hist := history_of (db w2) gid) in *.
  set (written := omap saved_note rs) in *.
  assert (length written = length rest) as Hlen.
  { rewrite <- (length_fmap n_content written), H2. by rewrite length_fmap. }
  assert (forall {B} (f : string * UserRef * string -> B),
            (fun e => f (entry_version e)) <$> hist =
            take (length rest) (f <$> (archived <$> n :: written))) as Hproj.
  { intros B f. rewrite (list_fmap_compose entry_version f), H1.
    by rewrite fmap_take. }
  split; [|split; [|split; [|split]]].
  - rewrite length_fmap, <- (length_fmap entry_version), H1.
    rewrite length_take. cbn. rewrite length_fmap. lia.
  - rewrite <- list_fmap_compose. etrans; [exact (Hproj _ (fun v => v.1.1))|].
    f_equal. rewrite <- list_fmap_compose. cbn. rewrite Hc, <- H2. done.
  - rewrite <- list_fmap_compose. etrans; [exact (Hproj _ (fun v => v.1.2))|].
    f_equal. rewrite <- list_fmap_compose. cbn. rewrite Hby, <- H3. done.
  - rewrite <- list_fmap_compose. etrans; [exact (Hproj _ (fun v => v.2))|].
    f_equal. rewrite <- list_fmap_compose. done.
  - cbn. by rewrite Hc, H2.
Qed.
(** ** Leaving a group *)

Lemma leave_ok_inv (env : Env) (u : UserClaims) (gid : string) (w : World) :
  status (leave env u gid w).1 = 200%nat ->
  exists g entry,
    groups (db w) !! gid = Some g /\
    List.find (fun m => String.eqb (m_userId m) (userId u)) (g_members g) = Some entry.
Proof.
  unfold leave. run_monad.
  destruct (groups (db w) !! gid) as [g|]; [|by cbn].
  destruct (List.find _ _) as [entry|] eqn:Hf; [|by cbn].
  eauto.
Qed.

Lemma remaining_after_filter (uid : string) (ms : list Member) :
  remaining_after uid ms = filter (fun m => m_userId m <> uid) ms.
Proof.
  unfold remaining_after. induction ms as [|m ms IH]; [done|].
  cbn [List.filter]. rewrite filter_cons.
  destruct (String.eqb (m_userId m) uid) eqn:He; cbn [negb].
  - apply String.eqb_eq in He. by rewrite decide_False by (by intros ?).
  - apply String.eqb_neq in He. rewrite decide_True by done. by rewrite IH.
Qed.

(** C3. A leave that answers 200 from a reachable world was made by a member
    of the stored group.  Write [others] for the members of the stored list
    whose user id is not the caller's, in list order, and call the caller
    the sole admin when every admin entry of the stored list is the
    caller's.  If [others] is empty the group document is gone.  Otherwise
    the group is still stored, its member list has an admin, and it is:
    [others] with its first entry made admin (the only admin of the new
    list) when the caller was the sole admin, [others] itself when not.
    No other group document changes. *)
Theorem leave_keeps_an_admin (env : Env) (u : UserClaims) (gid : string) (w : World) :
  reachable env w ->
  status (leave env u gid w).1 = 200%nat ->
  exists g,
    groups (db w) !! gid = Some g /\
    userId u ∈ m_userId <$> g_members g /\
    let others := filter (fun m => m_userId m <> userId u) (g_members g) in
    let sole_admin :=
      forall m, m ∈ g_members g -> m_role m = admin -> m_userId m = userId u in
    let after := groups (db (leave env u gid w).2) in
    (others = [] -> after !! gid = None) /\
    (forall first rest, others = first :: rest ->
     exists g',
       after !! gid = Some g' /\
       has_admin (g_members g') /\
       (sole_admin ->
        g_members g' = with_role admin first :: rest /\
        forall m, m ∈ g_members g' -> m_role m = admin -> m = with_role admin first) /\
       (~ sole_admin -> g_members g' = others)) /\
    (forall gid', gid' <> gid -> after !! gid' = groups (db w) !! gid').
Proof.
  intros Hreach Hok.
  destruct (reachable_invariants env w Hreach) as (Hdir & _ & _).
  destruct (leave_ok_inv env u gid w Hok) as (g & entry & Hg & Hf).
  exists g. split; [done|].
  destruct (find_entry _ _ _ Hf) as [Hin Hid].
  split; [apply list_elem_of_fmap; by exists entry|]. cbn zeta.
  rewrite leave_groups, Hg, Hf, <- remaining_after_filter.
  destruct (Hdir _ _ Hg) as [Hnd Hadm].
  destruct (remaining_after (userId u) (g_members g)) as [|m rest] eqn:Hrem.
  - cbn [length Nat.eqb]. split; [intros _; by rewrite lookup_delete_eq|].
    split; [by intros ? ? [=]|]. intros gid' Hne. by rewrite lookup_delete_ne.
  - cbn [length Nat.eqb]. split; [done|].
    split; [|intros gid' Hne; by rewrite lookup_insert_ne].
    intros first rest' [= <- <-]. rewrite lookup_insert_eq.
    eexists. split; [reflexivity|]. cbn [g_members with_members].
    split. { apply members_after_leave_ok; try done. by rewrite Hrem. }
    unfold members_after_leave. rewrite Hrem.
    assert (is_admin entry && negb (existsb is_admin (m :: rest)) = true <->
            (forall x, x ∈ g_members g -> m_role x = admin -> m_userId x = userId u))
      as Hsole.
    { rewrite andb_true_iff, negb_true_iff. split.
      - intros [_ Hno] x Hx Hr. destruct (decide (m_userId x = userId u)) as [|Hne]; [done|].
        assert (existsb is_admin (m :: rest) = true) as Hyes; [|congruence].
        apply has_admin_existsb, Exists_exists. exists x. split; [|done].
        rewrite <- Hrem. by apply remaining_after_elem.
      - intros Hs. split.
        + apply is_admin_spec. apply Exists_exists in Hadm as (x & Hx & Hr).
          pose proof (Hs x Hx Hr) as Hxid.
          assert (x = entry) as <-; [|done].
          eapply same_id_same_entry; eauto. congruence.
        + destruct (existsb is_admin (m :: rest)) eqn:He; [|done].
          apply has_admin_existsb, Exists_exists in He as (x & Hx & Hr).
          rewrite <- Hrem in Hx. apply remaining_after_elem in Hx as [Hx Hne].
          by specialize (Hs x Hx Hr). }
    split.
    + intros Hs. pose proof Hs as Hb. apply Hsole in Hb. rewrite Hb. cbn [promote_first].
      split; [done|]. intros x Hx Hr. apply elem_of_cons in Hx as [->|Hx]; [done|].
      exfalso. apply andb_true_iff in Hb as [_ Hno]. apply negb_true_iff in Hno.
      assert (existsb is_admin (m :: rest) = true) as Hyes; [|congruence].
      apply has_admin_existsb, Exists_exists. exists x. split; [by right|done].
    + intros Hns. destruct (is_admin entry && negb _) eqn:Hb; [|done].
      exfalso. apply Hns. by apply Hsole.
Qed.

Lemma registered_reachable : reachable Ex.env Ex.registered.
Proof. by apply (reach_other _ init_world); [apply reach_init|..]. Qed.

Lemma created_reachable : reachable Ex.env Ex.created.
Proof. apply reach_create, registered_reachable. Qed.
(** ** Joining a group *)

Lemma arrayUnion_elem {A} `{EqDecision A} (x : A) (l : list A) : x ∈ arrayUnion x l.
Proof.
  unfold arrayUnion. case_decide; [done|]. apply elem_of_app. right.
  by apply list_elem_of_singleton.
Qed.

Lemma arrayUnion_fresh {A} `{EqDecision A} (x : A) (l : list A) :
  x ∉ l -> arrayUnion x l = l ++ [x].
Proof. intros Hx. unfold arrayUnion. by case_decide. Qed.

Lemma non_member_entry_fresh (u : UserClaims) (joinedAt : string) (g : Group) :
  is_member (userId u) g = false -> joined_member u joinedAt ∉ g_members g.
Proof.
  intros Hm%is_member_false Hin. apply Hm, list_elem_of_fmap.
  eexists. split; [|exact Hin]. done.
Qed.

Lemma no_entry_of_non_member (uid : string) (g : Group) :
  is_member uid g = false ->
  List.filter (fun m => String.eqb (m_userId m) uid) (g_members g) = [].
Proof.
  unfold is_member. induction (g_members g) as [|m ms IH]; cbn; [done|].
  intros [Hm Hms]%orb_false_iff. rewrite Hm. auto.
Qed.

Lemma code_matches_dec (req : JoinReq) (g : Group) :
  String.eqb (Js.trim (default "" (j_inviteCode req))) "" = false /\
  negb (String.eqb (Js.toUpperCase (g_inviteCode g))
                   (Js.toUpperCase (Js.trim (default "" (j_inviteCode req))))) = false
  <-> code_matches req g.
Proof.
  unfold code_matches. cbn zeta.
  rewrite negb_false_iff, String.eqb_eq, String.eqb_neq. done.
Qed.

(** C4, as stated, fails: Alice is already a member of [doc00]; her join
    request with a code that does not match is answered 400, not 409. *)
Lemma member_with_wrong_code_gets_400 :
  (exists g, groups (db Ex.created) !! "doc00" = Some g /\
             is_member "alice" g = true) /\
  status (join Ex.env {| j_user := Ex.alice; j_groupId := "doc00";
                         j_inviteCode := Some "00000000" |} Ex.created).1 <> 409%nat.
Proof.
  split.
  - eexists. split; [vm_compute; reflexivity|]. vm_compute. reflexivity.
  - vm_compute. discriminate.
Qed.

(** C4, amended. For a join request on an existing group by a caller whose
    user document exists: the answer is 200 exactly when the supplied code,
    trimmed, is non-empty and equals the group's code up to letter case and
    the caller is not yet a member; with a matching code a member gets 409
    and with a code that does not match anybody gets 400, and in both cases
    the world is unchanged.  A successful join appends one entry with role
    [member] for the caller, who then has exactly one entry, puts the group
    id on the caller's list of groups, and the same request sent again is
    answered 409 and changes nothing. *)
Theorem join_outcome (env : Env) (req : JoinReq) (w : World) (g : Group) (usr : User) :
  groups (db w) !! j_groupId req = Some g ->
  users (db w) !! userId (j_user req) = Some usr ->
  let r := (join env req w).1 in
  let w' := (join env req w).2 in
  let uid := userId (j_user req) in
  (status r = 200%nat <-> code_matches req g /\ is_member uid g = false) /\
  (code_matches req g -> is_member uid g = true -> status r = 409%nat /\ w' = w) /\
  (~ code_matches req g -> status r = 400%nat /\ w' = w) /\
  (status r = 200%nat ->
   exists g' usr',
     groups (db w') !! j_groupId req = Some g' /\
     g_members g' = g_members g ++ [joined_member (j_user req) (clock env (tick w))] /\
     m_role (joined_member (j_user req) (clock env (tick w))) = member /\
     length (List.filter (fun m => String.eqb (m_userId m) uid) (g_members g')) = 1%nat /\
     users (db w') !! uid = Some usr' /\
     j_groupId req ∈ u_groups usr' /\
     status (join env req w').1 = 409%nat /\
     (join env req w').2 = w').
Proof.
  intros Hg Hu. cbn zeta.
  pose proof (code_matches_dec req g) as Hcode.
  unfold join.
  destruct (String.eqb (Js.trim (default "" (j_inviteCode req))) "") eqn:He.
  { cbn. split; [|split; [|split]]; try done.
    - split; [done|]. intros [Hm _]. apply Hcode in Hm as [? _]. done.
    - intros Hm. apply Hcode in Hm as [? _]. done. }
  run_monad. rewrite Hg.
  destruct (negb (String.eqb _ _)) eqn:Hc.
  { cbn. split; [|split; [|split]]; try done.
    - split; [done|]. intros [Hm _]. apply Hcode in Hm as [_ ?]. done.
    - intros Hm. apply Hcode in Hm as [_ ?]. done. }
  assert (code_matches req g) as Hm by (by apply Hcode).
  destruct (is_member (userId (j_user req)) g) eqn:Hmem.
  { cbn. split; [|split; [|split]]; try done. by split; [|intros [_ ?]]. }
  run_monad. rewrite Hg. run_monad. rewrite Hu. run_monad.
  split; [done|]. split; [done|]. split; [done|]. intros _.
  fold (joined_member (j_user req) (clock env (tick w))).
  set (uid_entry := joined_member (j_user req) (clock env (tick w))).
  rewrite (arrayUnion_fresh uid_entry) by (by apply non_member_entry_fresh).
  subst uid_entry. rewrite !lookup_insert_eq.
  eexists _, _. split; [reflexivity|]. cbn [g_members with_members].
  split; [reflexivity|]. split; [reflexivity|].
  split.
  { rewrite List.filter_app, no_entry_of_non_member by done.
    cbn. by rewrite String.eqb_refl. }
  split; [reflexivity|]. split; [apply arrayUnion_elem|].
  cbn [g_inviteCode with_members]. rewrite Hc.
  assert (is_member (userId (j_user req))
            (with_members (g_members g ++
               [joined_member (j_user req) (clock env (tick w))])
               (clock env (S (tick w))) g) = true) as ->.
  { apply is_member_spec. cbn [g_members with_members]. rewrite fmap_app.
    apply elem_of_app. right. by apply list_elem_of_singleton. }
  done.
Qed.
(** ** One of two connections goes away *)



Section Disconnect.
Context (c : Conn).




End Disconnect.
(** ** Paging through the message history *)













Section OrderByFacts.
Context {A : Type} (key : A -> string).

Lemma not_after_trans (a b c : string) : not_after a b -> not_after b c -> not_after a c.
Proof.
  unfold not_after. intros H1%Is_true_true H2%Is_true_true. apply Is_true_true.
  exact (transitivity (R := String.le) H1 H2).
Qed.

Lemma not_after_total (a b : string) : String.leb a b = false -> not_after b a.
Proof.
  unfold not_after. intros H. destruct (String.leb_total a b) as [?|?]; congruence.
Qed.

Lemma insert_desc_perm (x : A) (l : list A) : insert_desc key x l ≡ₚ x :: l.
Proof.
  induction l as [|y l IH]; cbn; [done|].
  destruct (String.leb _ _); [done|]. by rewrite IH, Permutation_swap.
Qed.

Lemma orderBy_desc_perm (l : list A) : orderBy_desc key l ≡ₚ l.
Proof.
  induction l as [|x l IH]; cbn; [done|].
  unfold orderBy_desc in *. cbn. by rewrite insert_desc_perm, IH.
Qed.

Lemma insert_desc_sorted (x : A) (l : list A) :
  StronglySorted (desc_by key) l -> StronglySorted (desc_by key) (insert_desc key x l).
Proof.
  induction l as [|y l IH]; cbn.
  - intros _. by repeat constructor.
  - intros [Hy Hl]%StronglySorted_cons.
    destruct (String.leb (key y) (key x)) eqn:Hyx.
    + apply StronglySorted_cons. split; [|by apply StronglySorted_cons].
      apply Forall_cons. split; [exact Hyx|].
      eapply Forall_impl; [exact Hy|]. intros z Hz.
      exact (not_after_trans _ _ _ Hz Hyx).
    + apply StronglySorted_cons. split; [|by apply IH].
      rewrite insert_desc_perm. apply Forall_cons. split; [|done].
      by apply not_after_total.
Qed.

Lemma orderBy_desc_sorted (l : list A) : StronglySorted (desc_by key) (orderBy_desc key l).
Proof.
  induction l as [|x l IH]; [constructor|].
  unfold orderBy_desc in *. cbn. by apply insert_desc_sorted.
Qed.

Lemma rev_sorted (R : relation A) (l : list A) :
  StronglySorted R l -> StronglySorted (flip R) (reverse l).
Proof.
  induction l as [|x l IH]; [constructor|]. rewrite reverse_cons.
  intros [Hx Hl]%StronglySorted_cons. apply StronglySorted_app.
  split; [|split; [by apply IH|by repeat constructor]].
  intros a b Ha ->%list_elem_of_singleton. rewrite elem_of_reverse in Ha.
  unfold flip. rewrite Forall_forall in Hx. by apply Hx.
Qed.

End OrderByFacts.

Lemma matching_messages_spec (d : Db) (gid : string) (before : option string) (m : Message) :
  m ∈ matching_messages d gid before <-> eligible d gid before m.
Proof.
  unfold matching_messages, eligible.
  assert (m ∈ List.filter (fun m => String.eqb (msg_groupId m) gid)
                          (map_to_list (messages d)).*2
          <-> (exists id, messages d !! id = Some m) /\ msg_groupId m = gid) as Hgroup.
  { rewrite elem_of_filter_bool, String.eqb_eq, list_elem_of_fmap.
    split; intros [Hin Hg]; (split; [|done]).
    - destruct Hin as ([id m'] & -> & Hin). exists id. by apply elem_of_map_to_list.
    - destruct Hin as (id & Hin). exists (id, m). split; [done|].
      by apply elem_of_map_to_list. }
  destruct before as [b|]; cbn [Js.truthy default from_option id].
  - destruct (String.eqb b "") eqn:Hb; cbn [negb].
    + rewrite Hgroup. split; [intros [? ?]; by repeat split|by intros (? & ? & _)].
    + rewrite elem_of_filter_bool, Hgroup.
      split; [intros [[? ?] ?]; by repeat split|intros (? & ? & Hlt); by auto].
  - rewrite Hgroup. split; [intros [? ?]; by repeat split|by intros (? & ? & _)].
Qed.

(** ** Posting a message: the request path and the socket path *)

Lemma trimEnd_idem (s : string) : Js.trimEnd (Js.trimEnd s) = Js.trimEnd s.
Proof.
  induction s as [|c s IH]; [done|]. cbn [Js.trimEnd].
  destruct (Js.trimEnd s) as [|c' r] eqn:Hr.
  - destruct (Js.is_ws c) eqn:Hc; [done|]. cbn. by rewrite Hc.
  - cbn [Js.trimEnd] in *. by rewrite IH.
Qed.

Lemma trimStart_trimEnd (c : ascii) (s : string) :
  Js.is_ws c = false ->
  Js.trimStart (Js.trimEnd (String c s)) = Js.trimEnd (String c s).
Proof.
  intros Hc. cbn [Js.trimEnd].
  destruct (Js.trimEnd s); rewrite ?Hc; cbn [Js.trimStart]; by rewrite Hc.
Qed.

Lemma trimStart_head (s : string) :
  Js.trimStart s = EmptyString \/
  exists c t, Js.trimStart s = String c t /\ Js.is_ws c = false.
Proof.
  induction s as [|c s IH]; [by left|]. cbn.
  destruct (Js.is_ws c) eqn:Hc; [done|]. right. eauto.
Qed.

Lemma trim_idem (s : string) : Js.trim (Js.trim s) = Js.trim s.
Proof.
  unfold Js.trim.
  destruct (trimStart_head s) as [->|(c & t & -> & Hc)]; [done|].
  by rewrite trimStart_trimEnd, trimEnd_idem.
Qed.

(** For a member of an existing group the two paths agree: the same texts
    are refused, and an accepted text leads to the same world (the same
    stored message under the same id, the same broadcast). *)
Lemma send_message_agrees_for_members (env : Env) (sid : string) (c : Conn)
  (u : UserClaims) (gid txt : string) (g : Group) (w : World) :
  conns (io w) !! sid = Some c -> c_user c = Some u ->
  groups (db w) !! gid = Some g -> is_member (userId u) g = true ->
  gid <> "" ->
  let posted := post_message env {| pm_user := u; pm_groupId := gid;
                                    pm_text := Some txt |} w in
  let sent := handle env sid (SendMessage (Some gid) (Some txt)) w in
  (status posted.1 = 201%nat -> sent = posted.2) /\
  (status posted.1 <> 201%nat -> db sent = db w /\ posted.2 = w).
Proof.
  intros Hc Hu Hg Hm Hgid. cbn zeta.
  unfold handle, on_send_message, post_message, validate_text. rewrite Hc, Hu.
  cbn [pm_text pm_user pm_groupId default from_option id Js.truthy fmap option_fmap option_map].
  apply String.eqb_neq in Hgid. rewrite Hgid. cbn [negb orb].
  destruct (String.eqb (Js.trim txt) "") eqn:He; cbn [negb app].
  { destruct (2000 <? _)%nat; cbn; by run_monad. }
  destruct (2000 <? String.length (Js.trim txt))%nat eqn:Hl; cbn [app].
  { by run_monad. }
  run_monad. rewrite Hg, Hm. run_monad.
  unfold build_message. rewrite trim_idem. done.
Qed.
(** The socket path stores and broadcasts whatever an authenticated
    connection sends, whoever the members of the group are and whether or
    not the group exists. *)
Lemma send_message_never_asks_the_directory (env : Env) (sid : string) (c : Conn)
  (u : UserClaims) (gid txt : string) (w : World) :
  conns (io w) !! sid = Some c -> c_user c = Some u ->
  gid <> "" -> Js.trim txt <> "" -> (String.length (Js.trim txt) <= 2000)%nat ->
  let m := build_message (autoId env (tick w)) gid u txt
             (clock env (S (tick w))) (clock env (S (S (tick w)))) in
  let w' := handle env sid (SendMessage (Some gid) (Some txt)) w in
  messages (db w') = <[autoId env (tick w) := m]> (messages (db w)) /\
  outbox (io w') = outbox (io w) ++
    [{| em_target := ToRoom gid; em_recipients := recipients (ToRoom gid) (io w);
        em_event := EvNewMessage m |}].
Proof.
  intros Hc Hu Hgid Htxt Hlen. cbn zeta.
  unfold handle, on_send_message. rewrite Hc, Hu.
  cbn [default from_option id Js.truthy fmap option_fmap option_map].
  apply String.eqb_neq in Hgid, Htxt. rewrite Hgid, Htxt. cbn [negb orb].
  assert ((2000 <? String.length (Js.trim txt))%nat = false) as ->
    by (apply Nat.ltb_ge; lia).
  by run_monad.
Qed.

(** C1, the failing input.  Bob is connected on [s3] with a valid token and
    is not a member of group [doc00].  The request path refuses his message
    with 403 and changes nothing; the [send_message] event stores it under
    a fresh id with his identity and broadcasts it to the room. *)
Theorem send_message_skips_the_membership_gate :
  let w := Ex.connected in
  let posted := post_message Ex.env {| pm_user := Ex.bob; pm_groupId := "doc00";
                                       pm_text := Some "hi" |} w in
  let sent := handle Ex.env "s3" (SendMessage (Some "doc00") (Some "hi")) w in
  let m := {| messageId := "doc06"; msg_groupId := "doc00"; senderId := "bob";
              senderEmail := "bob@example.org"; senderName := "Bob"; text := "hi";
              msg_createdAt := "2024-05-01T10:00:07.000Z";
              msg_updatedAt := "2024-05-01T10:00:08.000Z" |} in
  (c_user <$> conns (io w) !! "s3") = Some (Some Ex.bob) /\
  (is_member "bob" <$> groups (db w) !! "doc00") = Some false /\
  status posted.1 = 403%nat /\ posted.2 = w /\
  messages (db w) !! "doc06" = None /\
  messages (db sent) !! "doc06" = Some m /\
  writes (db sent) = writes (db w) ++ [WSet Messages "doc06"] /\
  (em_event <$> outbox (io sent)) = [EvNewMessage m].
Proof. cbv zeta. repeat split; vm_compute; reflexivity. Qed.
(** ** The theorems at work on the example worlds *)

Lemma joined_reachable : reachable Ex.env Ex.joined.
Proof. apply reach_join, created_reachable. Qed.


Lemma note_history_after_saves_witness :
  h_content <$> (history_of (db (save_all Ex.env "doc00" Ex.three_saves Ex.created).2)
                            "doc00").*2 = ["v1"; "v2"].
Proof.
  pose proof (note_history_after_saves Ex.env "doc00" Ex.three_saves Ex.created
                created_reachable) as H.
  destruct H as (_ & H & _).
  - vm_compute. reflexivity.
  - discriminate.
  - vm_compute. repeat constructor.
  - exact H.
Defined.

Lemma leave_keeps_an_admin_witness :
  exists g',
    groups (db (leave Ex.env Ex.alice "doc00" Ex.joined).2) !! "doc00" = Some g' /\
    (fun m => (m_userId m, m_role m)) <$> g_members g' = [("bob", admin)].
Proof.
  destruct (leave_keeps_an_admin Ex.env Ex.alice "doc00" Ex.joined joined_reachable)
    as (g & Hg & _ & _ & H & _).
  - vm_compute. reflexivity.
  - vm_compute in Hg. injection Hg as <-.
    edestruct H as (g' & H1 & _ & H2 & _).
    + vm_compute. reflexivity.
    + exists g'. split; [exact H1|].
      destruct H2 as [-> _]; [|vm_compute; reflexivity].
      intros m Hm Hr. cbn in Hm.
      apply elem_of_cons in Hm as [->|Hm]; [reflexivity|].
      apply elem_of_cons in Hm as [->|Hm]; [discriminate Hr|].
      by apply not_elem_of_nil in Hm.
Defined.

Lemma join_outcome_witness :
  status (join Ex.env {| j_user := Ex.bob; j_groupId := "doc00";
                         j_inviteCode := Some "bcd9f613" |} Ex.joined).1 = 409%nat.
Proof.
  pose proof (join_outcome Ex.env
                {| j_user := Ex.bob; j_groupId := "doc00";
                   j_inviteCode := Some "bcd9f613" |} Ex.created) as H.
  edestruct H as (_ & _ & _ & H4).
  - vm_compute. reflexivity.
  - vm_compute. reflexivity.
  - destruct H4 as (g' & usr' & _ & _ & _ & _ & _ & _ & H409 & _).
    + vm_compute. reflexivity.
    + exact H409.
Defined.

Lemma cross_group_mutation_rejected_witness :
  status (mutate Ex.env DeleteMessage Ex.alice "doc09" "doc06" Ex.two_groups).1 = 400%nat /\
  (mutate Ex.env DeleteMessage Ex.alice "doc09" "doc06" Ex.two_groups).2 = Ex.two_groups.
Proof.
  destruct (cross_group_mutation_rejected Ex.env DeleteMessage Ex.alice
              "doc09" "doc06" "doc00" Ex.two_groups) as [_ H].
  - vm_compute. reflexivity.
  - discriminate.
  - split; [vm_compute; reflexivity | exact H].
Defined.


Lemma complete_task_writes_three_fields_witness :
  (t_completedAt <$> tasks (db (complete_task Ex.env
       {| tr_user := Ex.alice; tr_groupId := "doc00"; tr_taskId := "t1" |}
       (Js.VBool true) Ex.with_task).2) !! "t1")
  = Some (Some "2024-05-01T10:00:06.000Z").
Proof.
  edestruct (complete_task_writes_three_fields Ex.env Ex.alice "doc00" "t1" true
               Ex.with_task) as [_ H].
  - vm_compute. reflexivity.
  - vm_compute. reflexivity.
  - vm_compute. reflexivity.
  - reflexivity.
  - rewrite H. vm_compute. reflexivity.
Defined.


Lemma create_invite_code_witness : valid_invite_code "BCD9F613".
Proof.
  edestruct (create_invite_code Ex.env
               {| cg_user := Ex.alice; cg_name := Some "Midterm Prep";
                  cg_description := None |} Ex.registered) as [H _].
  - left. eexists. vm_compute. reflexivity.
  - exact H.
Defined.
(** ** The remaining routes are steps of the last rule *)

Lemma reachable_by_chat_and_tasks (env : Env) (w : World) :
  reachable env w ->
  (forall req, reachable env (post_message env req w).2) /\
  (forall req, reachable env (delete_message req w).2) /\
  (forall op u gid id, reachable env (mutate env op u gid id w).2).
Proof.
  intros Hw. split; [|split].
  - intros req. apply (reach_other env w); [done|..];
      unfold post_message; crunch; done.
  - intros req. apply (reach_other env w); [done|..];
      unfold delete_message; crunch; done.
  - intros op u gid id. apply (reach_other env w); [done|..]; destruct op;
      unfold mutate, delete_message, update_task, delete_task, complete_task;
      crunch; done.
Qed.

(** C8, the failing input.  The validator also lets the strings ["false"]
    and ["0"] through (all a form-encoded body can carry), and the handler
    then goes by JavaScript truthiness.  For a member, an existing task of
    the group and either string as [completed]: the request is not rejected,
    the answer is 200 with the message of a completion, and the one update
    stores the string as the flag together with [completedAt] set to the
    clock reading and [completedBy] set to the caller, where a toggle to
    false is to clear both. *)
Theorem complete_task_with_string_false (env : Env) (u : UserClaims)
  (gid id s : string) (w : World) (g : Group) (t : Task) :
  groups (db w) !! gid = Some g ->
  is_member (userId u) g = true ->
  tasks (db w) !! id = Some t ->
  t_groupId t = gid ->
  s = "false" \/ s = "0" ->
  let out := complete_task env {| tr_user := u; tr_groupId := gid; tr_taskId := id |}
                           (Js.VStr s) w in
  isBoolean (Js.VStr s) = true /\
  exists t',
    out.1 = {| status := 200; body := BTask "Task marked as complete." t' |} /\
    tasks (db out.2) = <[id := t']> (tasks (db w)) /\
    writes (db out.2) = writes (db w) ++ [WUpdate Tasks id] /\
    t_completed t' = Js.VStr s /\
    t_completedAt t' = Some (clock env (tick w)) /\
    t_completedBy t' = Some {| ref_userId := userId u; ref_displayName := displayName u |}.
Proof.
  intros Hg Hm Ht <- Hs. cbn zeta.
  assert (isBoolean (Js.VStr s) = true /\ Js.value_truthy (Js.VStr s) = true)
    as [Hb Htr] by (by destruct Hs as [->| ->]).
  split; [done|].
  unfold complete_task; cbn [tr_user tr_groupId tr_taskId]. rewrite Hb. cbn [negb].
  run_monad. rewrite Hg, Hm. run_monad. rewrite Ht. run_monad.
  rewrite String.eqb_refl. cbn [negb]. run_monad. rewrite Ht. run_monad.
  rewrite lookup_insert_eq. run_monad. rewrite Htr.
  eexists. split; [reflexivity|]. unfold mark_completed. rewrite Htr. done.
Qed.

Lemma complete_task_with_string_false_witness :
  let w' := (complete_task Ex.env
               {| tr_user := Ex.alice; tr_groupId := "doc00"; tr_taskId := "t1" |}
               (Js.VStr "false") Ex.with_task).2 in
  (t_completed <$> tasks (db w') !! "t1") = Some (Js.VStr "false") /\
  (t_completedAt <$> tasks (db w') !! "t1") = Some (Some "2024-05-01T10:00:06.000Z").
Proof.
  cbv zeta.
  edestruct (complete_task_with_string_false Ex.env Ex.alice "doc00" "t1" "false"
               Ex.with_task) as (_ & t' & _ & Hst & _ & H1 & H2 & _).
  - vm_compute. reflexivity.
  - vm_compute. reflexivity.
  - vm_compute. reflexivity.
  - reflexivity.
  - by left.
  - rewrite Hst, lookup_insert_eq. cbn. rewrite H1, H2. split; reflexivity.
Defined.

(** * Further properties of the routes and the socket handlers *)

Ltac run_routes :=
  unfold catch_read, catch_read_500, refuse, setTask, error_response in *;
  run_monad.

Ltac crunch_routes :=
  repeat (run_routes; cbn [fst snd] in *; try case_match; simplify_eq);
  run_routes; cbn [fst snd] in *.
(** ** Nobody outside the group gets through *)

Lemma gate_throws (gid uid : string) (w : World) :
  (is_member uid <$> groups (db w) !! gid) <> Some true ->
  exists st msg,
    requireGroupMembership gid uid w =
      (Throw {| err_status := Some st; err_message := msg |}, w) /\
    String.eqb msg "" = false /\
    ((st = 404%nat /\ groups (db w) !! gid = None) \/
     (st = 403%nat /\ is_Some (groups (db w) !! gid))).
Proof.
  intros Hout. run_monad. destruct (groups (db w) !! gid) as [g|] eqn:Hg.
  - destruct (is_member uid g) eqn:Hm.
    { exfalso. apply Hout. rewrite ?Hg. cbn. by rewrite Hm. }
    eexists _, _. split; [reflexivity|]. split; [reflexivity|]. right. eauto.
  - eexists _, _. split; [reflexivity|]. split; [reflexivity|]. left. eauto.
Qed.

Ltac outsider Hthrow :=
  unfold catch_status, catch_read, catch_read_500, error_response, requireMember, bind;
  rewrite Hthrow; cbn;
  repeat match goal with H : String.eqb _ "" = false |- _ => rewrite H end;
  repeat split; auto.

(** X1. A caller who is not a member of the group in the path (or names a
    group that does not exist) gets no stored data from any route behind the
    membership gate and changes nothing: the answer is 404 when the group is
    absent and 403 when it exists, unless the request is already refused as
    malformed with 400. *)
Theorem gate_refuses_outsiders (env : Env) (route : GatedRoute) (u : UserClaims)
  (gid : string) (w : World) :
  (is_member (userId u) <$> groups (db w) !! gid) <> Some true ->
  let '(st, has_data, w') := serve env route u gid w in
  has_data = false /\ w' = w /\
  (st = 400%nat \/
   (st = 404%nat /\ groups (db w) !! gid = None) \/
   (st = 403%nat /\ is_Some (groups (db w) !! gid))).
Proof.
  intros Hout.
  destruct (gate_throws gid (userId u) w Hout) as (st & msg & Hthrow & Hmsg & Hst).
  destruct route as [limit before|txt| |content| | |title descr assignee due|op id| |];
    cbn [serve].
  - unfold get_messages; cbn [gm_limit gm_user gm_groupId gm_before].
    destruct (validate_limit limit); [|cbn; auto]. outsider Hthrow.
    destruct Hst as [[-> ?]|[-> ?]]; auto.
  - unfold post_message; cbn [pm_text pm_user pm_groupId].
    destruct (validate_text txt) as [t [|e errs]]; [|cbn; auto]. outsider Hthrow.
    destruct Hst as [[-> ?]|[-> ?]]; auto.
  - unfold get_note. outsider Hthrow. destruct Hst as [[-> ?]|[-> ?]]; auto.
  - unfold put_note; cbn [pn_content pn_user pn_groupId].
    destruct content; [|cbn; auto]. outsider Hthrow.
    destruct Hst as [[-> ?]|[-> ?]]; auto.
  - unfold get_note_history. outsider Hthrow. destruct Hst as [[-> ?]|[-> ?]]; auto.
  - unfold get_tasks. outsider Hthrow. destruct Hst as [[-> ?]|[-> ?]]; auto.
  - unfold create_task; cbn [ct_user ct_groupId].
    destruct (validate_task env _) as [t [|e errs]]; [|cbn; auto]. outsider Hthrow.
    destruct Hst as [[-> ?]|[-> ?]]; auto.
  - destruct op; cbn [mutate].
    + unfold delete_message; cbn [dm_user dm_groupId dm_messageId]. outsider Hthrow.
      destruct Hst as [[-> ?]|[-> ?]]; auto.
    + unfold update_task; cbn [ut_user ut_groupId ut_taskId ut_body].
      destruct (validate_update env b) as [t [|e errs]]; [|cbn; auto]. outsider Hthrow.
      destruct Hst as [[-> ?]|[-> ?]]; auto.
    + unfold delete_task; cbn [tr_user tr_groupId tr_taskId]. outsider Hthrow.
      destruct Hst as [[-> ?]|[-> ?]]; auto.
    + unfold complete_task; cbn [tr_user tr_groupId tr_taskId].
      destruct (negb (isBoolean completed)); [cbn; auto|]. outsider Hthrow.
      destruct Hst as [[-> ?]|[-> ?]]; auto.
  - unfold get_group, catch_read_500, refuse. run_monad.
    destruct (groups (db w) !! gid) as [g|] eqn:Hg.
    + destruct (is_member (userId u) g) eqn:Hm.
      { exfalso. apply Hout. rewrite ?Hg. cbn. by rewrite Hm. }
      cbn. split; [done|]. split; [done|]. right. right. split; [done|]. by eexists.
    + cbn. split; [done|]. split; [done|]. right. by left.
  - unfold get_members, catch_read_500, refuse. run_monad.
    destruct (groups (db w) !! gid) as [g|] eqn:Hg.
    + destruct (is_member (userId u) g) eqn:Hm.
      { exfalso. apply Hout. rewrite ?Hg. cbn. by rewrite Hm. }
      cbn. split; [done|]. split; [done|]. right. right. split; [done|]. by eexists.
    + cbn. split; [done|]. split; [done|]. right. by left.
Qed.

(** ** Chat: what is stored and what is refused *)

(** X2. A member's message whose text, trimmed, has between 1 and 2000
    characters is answered 201; the stored document, the response body and
    the [new_message] broadcast to the room are one and the same message: it
    carries the trimmed text, the caller's identity, and an id and two
    timestamps drawn by the server.  It is the only write, and it goes under
    that id. *)
Theorem post_message_stores_trimmed_text (env : Env) (u : UserClaims)
  (gid txt : string) (w : World) (g : Group) :
  groups (db w) !! gid = Some g ->
  is_member (userId u) g = true ->
  Js.trim txt <> "" ->
  (String.length (Js.trim txt) <= 2000)%nat ->
  let id := autoId env (tick w) in
  let m := {| messageId := id; msg_groupId := gid; senderId := userId u;
              senderEmail := email u; senderName := displayName u;
              text := Js.trim txt;
              msg_createdAt := clock env (S (tick w));
              msg_updatedAt := clock env (S (S (tick w))) |} in
  let r := (post_message env {| pm_user := u; pm_groupId := gid;
                                pm_text := Some txt |} w).1 in
  let w' := (post_message env {| pm_user := u; pm_groupId := gid;
                                 pm_text := Some txt |} w).2 in
  r = {| status := 201; body := BPosted m |} /\
  messages (db w') = <[id := m]> (messages (db w)) /\
  writes (db w') = writes (db w) ++ [WSet Messages id] /\
  outbox (io w') = outbox (io w) ++
    [{| em_target := ToRoom gid; em_recipients := recipients (ToRoom gid) (io w);
        em_event := EvNewMessage m |}].
Proof.
  intros Hg Hm Htxt Hlen. cbn zeta.
  unfold post_message, validate_text. cbn [pm_text pm_user pm_groupId default from_option id].
  apply String.eqb_neq in Htxt. rewrite Htxt.
  assert ((2000 <? String.length (Js.trim txt))%nat = false) as ->
    by (apply Nat.ltb_ge; lia).
  cbn [app]. run_monad. rewrite Hg, Hm. run_monad.
  unfold build_message. rewrite trim_idem. done.
Qed.

(** X3. A text that is missing, blank after trimming, or longer than 2000
    characters after trimming is never stored, on either path: the request
    is answered 400 with the world unchanged, whoever sends it; the
    [send_message] event of an authenticated connection leaves the store
    unchanged and is answered with one [error] event to that socket. *)
Theorem bad_text_is_never_stored (env : Env) (txt : option string) (w : World) :
  Js.trim (default "" txt) = "" \/
  (2000 < String.length (Js.trim (default "" txt)))%nat ->
  (forall u gid,
     status (post_message env {| pm_user := u; pm_groupId := gid; pm_text := txt |} w).1
       = 400%nat /\
     (post_message env {| pm_user := u; pm_groupId := gid; pm_text := txt |} w).2 = w) /\
  (forall sid c u gid,
     conns (io w) !! sid = Some c -> c_user c = Some u ->
     db (handle env sid (SendMessage gid txt) w) = db w /\
     exists msg, outbox (io (handle env sid (SendMessage gid txt) w))
                 = outbox (io w) ++ [error_to sid msg]).
Proof.
  intros Hbad. split.
  - intros u gid. unfold post_message, validate_text. cbn [pm_text].
    destruct Hbad as [-> | Hlong].
    + cbn. done.
    + apply Nat.ltb_lt in Hlong. rewrite Hlong.
      destruct (String.eqb _ ""); cbn; done.
  - intros sid c u gid Hc Hu. unfold handle, on_send_message. rewrite Hc, Hu.
    assert (Js.truthy (Js.trim <$> txt) = negb (String.eqb (Js.trim (default "" txt)) ""))
      as -> by (by destruct txt).
    destruct (negb (Js.truthy gid) || negb (negb (String.eqb (Js.trim (default "" txt)) "")))
      eqn:Hfirst.
    { run_monad. split; [done|]. by eexists. }
    destruct Hbad as [Hempty | Hlong].
    + rewrite Hempty in Hfirst. cbn in Hfirst. by rewrite orb_true_r in Hfirst.
    + apply Nat.ltb_lt in Hlong. rewrite Hlong. run_monad. split; [done|]. by eexists.
Qed.

(** X4. For a member of the group in the path, the delete route answers 200
    exactly when the message exists, was sent by the caller and belongs to
    that group.  Then the document is removed by one delete, every other
    message stays, and [message_deleted] goes to the room; in every other
    case the world is unchanged, and somebody else's message gets 403. *)
Theorem delete_message_outcome (u : UserClaims) (gid mid : string) (w : World)
  (g : Group) :
  groups (db w) !! gid = Some g ->
  is_member (userId u) g = true ->
  let r := (delete_message {| dm_user := u; dm_groupId := gid;
                              dm_messageId := mid |} w).1 in
  let w' := (delete_message {| dm_user := u; dm_groupId := gid;
                               dm_messageId := mid |} w).2 in
  (status r = 200%nat <->
   exists m, messages (db w) !! mid = Some m /\ senderId m = userId u /\
             msg_groupId m = gid) /\
  (status r = 200%nat ->
   messages (db w') = delete mid (messages (db w)) /\
   writes (db w') = writes (db w) ++ [WDelete Messages mid] /\
   outbox (io w') = outbox (io w) ++
     [{| em_target := ToRoom gid; em_recipients := recipients (ToRoom gid) (io w);
         em_event := EvMessageDeleted mid gid |}]) /\
  (status r <> 200%nat -> w' = w) /\
  (forall m, messages (db w) !! mid = Some m -> senderId m <> userId u ->
             status r = 403%nat).
Proof.
  intros Hg Hm. cbn zeta. unfold delete_message. cbn [dm_user dm_groupId dm_messageId].
  run_monad. rewrite Hg, Hm. run_monad.
  destruct (messages (db w) !! mid) as [m|] eqn:Hmsg.
  - destruct (String.eqb (senderId m) (userId u)) eqn:Hs; cbn [negb].
    + apply String.eqb_eq in Hs.
      destruct (String.eqb (msg_groupId m) gid) eqn:Hgr; cbn [negb].
      * apply String.eqb_eq in Hgr. run_monad.
        split; [split; [eauto|done]|]. split; [done|]. split; [done|].
        intros m' [= <-] Hne. done.
      * apply String.eqb_neq in Hgr. cbn.
        split; [split; [done|intros (m' & [= <-] & _ & ?); done]|].
        split; [done|]. split; [done|]. intros m' [= <-] Hne. done.
    + apply String.eqb_neq in Hs. cbn.
      split; [split; [done|intros (m' & [= <-] & ? & _); done]|].
      split; [done|]. split; [done|]. done.
  - cbn. split; [split; [done|intros (m' & ? & _); done]|].
    split; [done|]. split; [done|]. intros m' ?. done.
Qed.

(** ** Paging backwards through the history *)

Lemma ltb_not_leb (a b : string) : String.ltb a b = true -> String.leb b a = false.
Proof.
  unfold String.ltb, String.leb. rewrite (String.compare_antisym b a).
  by destruct (String.compare a b).
Qed.

Lemma not_ltb_leb (a b : string) : String.ltb a b = false -> String.leb b a = true.
Proof.
  unfold String.ltb, String.leb. rewrite (String.compare_antisym b a).
  by destruct (String.compare a b).
Qed.

Lemma ltb_leb_trans (a b c : string) :
  String.ltb a b = true -> not_after b c -> String.ltb a c = true.
Proof.
  intros Hab Hbc. destruct (String.ltb a c) eqn:Hac; [done|].
  apply not_ltb_leb in Hac. apply ltb_not_leb in Hab.
  pose proof (not_after_trans _ _ _ Hbc Hac) as Hba. unfold not_after in Hba. congruence.
Qed.

Lemma page_sorted_eligible (d : Db) (gid : string) (before : option string) (n : Z) :
  StronglySorted oldest_first (reverse (query_messages d gid before n)) /\
  (forall m, m ∈ reverse (query_messages d gid before n) -> eligible d gid before m).
Proof.
  unfold query_messages.
  pose proof (orderBy_desc_sorted msg_createdAt (matching_messages d gid before)) as Hs.
  pose proof (orderBy_desc_perm msg_createdAt (matching_messages d gid before)) as Hp.
  set (sorted := orderBy_desc msg_createdAt _) in *.
  rewrite <- (take_drop (Z.to_nat n) sorted) in Hs. split.
  - apply rev_sorted. by apply StronglySorted_app_1_l in Hs.
  - intros m Hin. rewrite elem_of_reverse in Hin.
    apply matching_messages_spec. rewrite <- Hp.
    rewrite <- (take_drop (Z.to_nat n) sorted). apply elem_of_app. by left.
Qed.

Lemma get_messages_member (req : GetMessagesReq) (w : World) (g : Group) :
  groups (db w) !! gm_groupId req = Some g ->
  is_member (userId (gm_user req)) g = true ->
  validate_limit (gm_limit req) = [] ->
  get_messages req w =
    ({| status := 200;
        body := BMessages (reverse (query_messages (db w) (gm_groupId req)
                                      (gm_before req) (page_size (gm_limit req)))) |}, w).
Proof.
  intros Hg Hm Hv. unfold get_messages. rewrite Hv. run_monad. by rewrite Hg, Hm.
Qed.

(** X5. Paging with the cursor: when a member fetches a page and then
    fetches again with [before] set to the creation time of the oldest
    message of that page, every message of the second page is strictly older
    than every message of the first, so no message is served twice. *)
Theorem next_page_is_strictly_older (u : UserClaims) (gid : string)
  (limit1 limit2 before1 : option string) (w : World) (g : Group)
  (oldest : Message) (page1 page2 : list Message) :
  groups (db w) !! gid = Some g ->
  is_member (userId u) g = true ->
  (get_messages {| gm_user := u; gm_groupId := gid; gm_limit := limit1;
                   gm_before := before1 |} w).1
    = {| status := 200; body := BMessages (oldest :: page1) |} ->
  msg_createdAt oldest <> "" ->
  (get_messages {| gm_user := u; gm_groupId := gid; gm_limit := limit2;
                   gm_before := Some (msg_createdAt oldest) |} w).1
    = {| status := 200; body := BMessages page2 |} ->
  forall m1 m2, m1 ∈ oldest :: page1 -> m2 ∈ page2 ->
    String.ltb (msg_createdAt m2) (msg_createdAt m1) = true /\ m1 <> m2.
Proof.
  intros Hg Hm H1 Hne H2 m1 m2 Hin1 Hin2.
  assert (forall limit before ms,
            (get_messages {| gm_user := u; gm_groupId := gid; gm_limit := limit;
                             gm_before := before |} w).1
              = {| status := 200; body := BMessages ms |} ->
            ms = reverse (query_messages (db w) gid before (page_size limit))) as Hpage.
  { intros limit before ms Hr.
    destruct (validate_limit limit) eqn:Hv.
    - rewrite (get_messages_member {| gm_user := u; gm_groupId := gid; gm_limit := limit;
                                      gm_before := before |} w g Hg Hm Hv) in Hr.
      cbn in Hr. congruence.
    - unfold get_messages in Hr. cbn [gm_limit] in Hr. rewrite Hv in Hr. discriminate Hr. }
  apply Hpage in H1, H2.
  destruct (page_sorted_eligible (db w) gid before1 (page_size limit1)) as [Hs1 _].
  destruct (page_sorted_eligible (db w) gid (Some (msg_createdAt oldest)) (page_size limit2))
    as [_ He2].
  rewrite <- H1 in Hs1. rewrite <- H2 in He2.
  assert (String.ltb (msg_createdAt m2) (msg_createdAt oldest) = true) as Hlt.
  { destruct (He2 m2 Hin2) as (_ & _ & Hc). apply Hc. cbn.
    by apply negb_true_iff, String.eqb_neq. }
  assert (not_after (msg_createdAt oldest) (msg_createdAt m1)) as Hle.
  { apply StronglySorted_cons in Hs1 as [Hall _].
    apply elem_of_cons in Hin1 as [->|Hin1].
    - unfold not_after. destruct (String.leb_total (msg_createdAt oldest) (msg_createdAt oldest)); done.
    - rewrite Forall_forall in Hall. by apply Hall. }
  pose proof (ltb_leb_trans _ _ _ Hlt Hle) as Hlt'.
  split; [done|]. intros ->. apply ltb_not_leb in Hlt'.
  destruct (String.leb_total (msg_createdAt m2) (msg_createdAt m2)); congruence.
Qed.

(** ** The shared note: reading back, and the archive *)

Lemma put_note_member (env : Env) (u : UserClaims) (gid content : string)
  (w : World) (g : Group) :
  groups (db w) !! gid = Some g ->
  is_member (userId u) g = true ->
  status (put_note env {| pn_user := u; pn_groupId := gid;
                          pn_content := Some content |} w).1 = 200%nat.
Proof.
  intros Hg Hm. unfold put_note. cbn [pn_content pn_user pn_groupId].
  run_monad. rewrite Hg, Hm. run_monad. by destruct (notes (db w) !! gid).
Qed.

(** X6. Before the first save a member reads the empty default note; after
    a member has saved content C, any member reads back a stored note whose
    content is C and whose last editor is the member who saved.  Reading
    never changes the world. *)
Theorem note_save_then_get (env : Env) (u1 u2 : UserClaims) (gid content : string)
  (w : World) (g : Group) :
  groups (db w) !! gid = Some g ->
  is_member (userId u1) g = true ->
  is_member (userId u2) g = true ->
  let w' := (put_note env {| pn_user := u1; pn_groupId := gid;
                             pn_content := Some content |} w).2 in
  (notes (db w) !! gid = None -> get_note u2 gid w = (Found (EmptyNote gid), w)) /\
  exists n,
    get_note u2 gid w' = (Found (StoredNote n), w') /\
    n_content n = content /\
    n_lastEditedBy n = ref_of u1 /\
    n_groupId n = gid.
Proof.
  intros Hg Hm1 Hm2. cbn zeta. split.
  - intros Hnone. unfold get_note. run_routes. by rewrite Hg, Hm2, Hnone.
  - pose proof (put_note_member env u1 gid content w g Hg Hm1) as Hok.
    destruct (put_note_saved env _ w Hok) as (c & n & [= <-] & Hsn & Hc & Hby & Hn & Hgr & _).
    cbn [pn_groupId pn_user] in *.
    exists n. unfold get_note. run_routes. rewrite Hgr, Hg, Hm2, Hn, lookup_insert_eq.
    split; [done|]. split; [done|]. split; [done|].
    revert Hsn. unfold put_note, saved_note. cbn [pn_content pn_user pn_groupId].
    run_monad. rewrite Hg, Hm1. run_monad.
    destruct (notes (db w) !! gid); run_monad; by intros [= <-].
Qed.

Lemma orderBy_desc_newest_last {A} (key : A -> string) (l : list A) (x : A) :
  (forall y, y ∈ l -> String.ltb (key y) (key x) = true) ->
  orderBy_desc key (l ++ [x]) = x :: orderBy_desc key l.
Proof.
  unfold orderBy_desc. induction l as [|y l IH]; intros Hall; [done|].
  cbn [app foldr]. rewrite IH by (intros z Hz; apply Hall; by right).
  cbn [insert_desc]. rewrite (ltb_not_leb _ _ (Hall y ltac:(by left))). done.
Qed.

(** X7. The archive listing after an overwrite: if the clock reading taken
    for the new archive entry is later than the archive times already
    stored, the first entry of the history a member then fetches is the
    version that was just replaced: its content, editor and edit time. *)
Theorem history_head_is_replaced_version (env : Env) (u : UserClaims)
  (gid content : string) (w : World) (g : Group) (prev : Note) :
  groups (db w) !! gid = Some g ->
  is_member (userId u) g = true ->
  notes (db w) !! gid = Some prev ->
  (forall e, e ∈ history_of (db w) gid ->
             String.ltb (h_archivedAt e.2) (clock env (tick w)) = true) ->
  let w' := (put_note env {| pn_user := u; pn_groupId := gid;
                             pn_content := Some content |} w).2 in
  exists id rest,
    (get_note_history u gid w').1 =
      {| status := 200;
         body := BHistory
           ((id, {| h_content := n_content prev; h_savedBy := n_lastEditedBy prev;
                    h_savedAt := n_lastEditedAt prev;
                    h_archivedAt := clock env (tick w) |}) :: rest) |}.
Proof.
  intros Hg Hm Hprev Hclock. cbn zeta.
  unfold put_note, get_note_history. cbn [pn_content pn_user pn_groupId].
  run_monad. rewrite Hg, Hm. run_monad. rewrite Hprev. run_monad.
  rewrite Hg, Hm. run_monad.
  unfold history_of at 1. cbn [noteHistory log_write put_notes put_noteHistory].
  rewrite lookup_insert_eq. cbn [default from_option id].
  rewrite (orderBy_desc_newest_last (fun e => h_archivedAt e.2)).
  - cbn [take]. eexists _, _. reflexivity.
  - intros e He. cbn. by apply Hclock.
Qed.

(** X8. The history a member fetches holds at most 10 archive entries of the
    group, newest archive time first; an archive entry that is left out is
    no newer than any entry listed, and with 10 entries or fewer nothing is
    left out.  The fetch changes nothing. *)
Theorem note_history_page (u : UserClaims) (gid : string) (w : World) (g : Group) :
  groups (db w) !! gid = Some g ->
  is_member (userId u) g = true ->
  exists hs,
    get_note_history u gid w = ({| status := 200; body := BHistory hs |}, w) /\
    (length hs <= 10)%nat /\
    StronglySorted (desc_by (fun e => h_archivedAt e.2)) hs /\
    (forall e, e ∈ hs -> e ∈ history_of (db w) gid) /\
    (forall e e', e ∈ hs -> e' ∈ history_of (db w) gid -> e' ∉ hs ->
                  not_after (h_archivedAt e'.2) (h_archivedAt e.2)) /\
    ((length (history_of (db w) gid) <= 10)%nat -> hs ≡ₚ history_of (db w) gid).
Proof.
  intros Hg Hm. unfold get_note_history. run_monad. rewrite Hg, Hm. run_monad.
  eexists. split; [reflexivity|].
  pose proof (orderBy_desc_sorted (fun e : string * HistoryEntry => h_archivedAt e.2)
                (history_of (db w) gid)) as Hs.
  pose proof (orderBy_desc_perm (fun e : string * HistoryEntry => h_archivedAt e.2)
                (history_of (db w) gid)) as Hp.
  set (sorted := orderBy_desc _ _) in *.
  rewrite <- (take_drop 10 sorted) in Hs.
  split; [rewrite length_take; lia|].
  split; [by apply StronglySorted_app_1_l in Hs|].
  split; [|split].
  - intros e He. rewrite <- Hp, <- (take_drop 10 sorted). apply elem_of_app. by left.
  - intros e e' He He' Hout. rewrite <- Hp, <- (take_drop 10 sorted) in He'.
    apply elem_of_app in He' as [?|Hd]; [done|].
    exact (StronglySorted_app_1_elem_of _ _ _ _ _ Hs He Hd).
  - intros Hlen. rewrite take_ge; [done|].
    by rewrite (Permutation_length Hp).
Qed.

(** X9. The archive only grows at its end: whatever the save request and
    whatever its outcome, the archive of every group before the request is a
    prefix of its archive afterwards, at most one entry is added, and the
    note and archive of every group other than the one in the path are left
    as they were. *)
Theorem archive_is_append_only (env : Env) (req : PutNoteReq) (w : World) (gid : string) :
  let w' := (put_note env req w).2 in
  history_of (db w) gid `prefix_of` history_of (db w') gid /\
  (length (history_of (db w') gid) <= S (length (history_of (db w) gid)))%nat /\
  (gid <> pn_groupId req ->
   notes (db w') !! gid = notes (db w) !! gid /\
   history_of (db w') gid = history_of (db w) gid).
Proof.
  cbn zeta.
  destruct (decide (status (put_note env req w).1 = 200%nat)) as [Hok|Hno].
  - destruct (put_note_saved env req w Hok) as (c & n & _ & _ & _ & _ & Hn & _ & Hh).
    assert (gid <> pn_groupId req ->
            notes (db (put_note env req w).2) !! gid = notes (db w) !! gid /\
            history_of (db (put_note env req w).2) gid = history_of (db w) gid) as Hother.
    { intros Hne. rewrite Hn, lookup_insert_ne by done. split; [done|].
      unfold history_of. destruct (notes (db w) !! pn_groupId req).
      - destruct Hh as (i & e & _ & ->). by rewrite lookup_insert_ne.
      - by rewrite Hh. }
    split; [|split; [|done]].
    + destruct (decide (gid = pn_groupId req)) as [->|Hne].
      * destruct (notes (db w) !! pn_groupId req).
        -- destruct Hh as (i & e & _ & Hh). rewrite (history_of_insert _ _ _ _ Hh).
           by apply prefix_app_r.
        -- unfold history_of. by rewrite Hh.
      * by rewrite (proj2 (Hother Hne)).
    + destruct (decide (gid = pn_groupId req)) as [->|Hne].
      * destruct (notes (db w) !! pn_groupId req).
        -- destruct Hh as (i & e & _ & Hh). rewrite (history_of_insert _ _ _ _ Hh).
           rewrite length_app. cbn. lia.
        -- unfold history_of. rewrite Hh. lia.
      * rewrite (proj2 (Hother Hne)). lia.
  - rewrite (put_note_rejected env req w Hno). split; [done|]. split; [lia|done].
Qed.

(** ** The task board *)

Section OrderByAscFacts.
Context {A : Type} (key : A -> string).

Lemma insert_asc_perm (x : A) (l : list A) : insert_asc key x l ≡ₚ x :: l.
Proof.
  induction l as [|y l IH]; cbn; [done|].
  destruct (String.leb _ _); [done|]. by rewrite IH, Permutation_swap.
Qed.

Lemma orderBy_asc_perm (l : list A) : orderBy_asc key l ≡ₚ l.
Proof.
  induction l as [|x l IH]; cbn; [done|].
  unfold orderBy_asc in *. cbn. by rewrite insert_asc_perm, IH.
Qed.

Lemma insert_asc_sorted (x : A) (l : list A) :
  StronglySorted (asc_by key) l -> StronglySorted (asc_by key) (insert_asc key x l).
Proof.
  induction l as [|y l IH]; cbn.
  - intros _. by repeat constructor.
  - intros [Hy Hl]%StronglySorted_cons.
    destruct (String.leb (key x) (key y)) eqn:Hxy.
    + apply StronglySorted_cons. split; [|by apply StronglySorted_cons].
      apply Forall_cons. split; [exact Hxy|].
      eapply Forall_impl; [exact Hy|]. intros z Hz.
      exact (not_after_trans _ _ _ Hxy Hz).
    + apply StronglySorted_cons. split; [|by apply IH].
      rewrite insert_asc_perm. apply Forall_cons. split; [|done].
      by apply not_after_total.
Qed.

Lemma orderBy_asc_sorted (l : list A) : StronglySorted (asc_by key) (orderBy_asc key l).
Proof.
  induction l as [|x l IH]; [constructor|].
  unfold orderBy_asc in *. cbn. by apply insert_asc_sorted.
Qed.

End OrderByAscFacts.

Lemma tasks_of_spec (d : Db) (gid : string) (t : Task) :
  t ∈ tasks_of d gid <-> (exists id, tasks d !! id = Some t) /\ t_groupId t = gid.
Proof.
  unfold tasks_of. rewrite orderBy_asc_perm.
  rewrite elem_of_filter_bool, String.eqb_eq, list_elem_of_fmap.
  split; intros [Hin Hg]; (split; [|done]).
  - destruct Hin as ([id t'] & -> & Hin). exists id. by apply elem_of_map_to_list.
  - destruct Hin as (id & Hin). exists (id, t). split; [done|].
    by apply elem_of_map_to_list.
Qed.

(** X10. The task list a member fetches is exactly the stored tasks of the
    group, oldest creation time first, and fetching changes nothing. *)
Theorem get_tasks_lists_the_group (u : UserClaims) (gid : string) (w : World) (g : Group) :
  groups (db w) !! gid = Some g ->
  is_member (userId u) g = true ->
  exists ts,
    get_tasks u gid w = (Found ts, w) /\
    StronglySorted (asc_by t_createdAt) ts /\
    (forall t, t ∈ ts <-> (exists id, tasks (db w) !! id = Some t) /\ t_groupId t = gid).
Proof.
  intros Hg Hm. unfold get_tasks. run_routes. rewrite Hg, Hm. run_routes.
  eexists. split; [reflexivity|]. split.
  - apply orderBy_asc_sorted.
  - apply tasks_of_spec.
Qed.

Lemma task_fields_errors (env : Env) (description dueDate : option string) :
  task_fields_ok env description dueDate <->
  match description with
  | Some s => if (1000 <? String.length s)%nat
              then ["Description must be 1000 characters or less"] else []
  | None => []
  end
  ++ match dueDate with
     | Some s => if isISO8601 env s then []
                 else ["dueDate must be a valid ISO 8601 date"]
     | None => []
     end = @nil string.
Proof.
  unfold task_fields_ok. split.
  - intros [Hd Hdue].
    destruct description as [d|].
    + specialize (Hd d eq_refl). apply Nat.ltb_ge in Hd. rewrite Hd. cbn.
      destruct dueDate as [s|]; [|done]. by rewrite (Hdue s eq_refl).
    + cbn. destruct dueDate as [s|]; [|done]. by rewrite (Hdue s eq_refl).
  - intros [H1 H2]%app_eq_nil. split.
    + intros s ->. destruct (1000 <? String.length s)%nat eqn:Hl; [done|].
      by apply Nat.ltb_ge in Hl.
    + intros s ->. by destruct (isISO8601 env s).
Qed.

(** X11. Creating a task.  A title that is missing, blank after trimming or
    longer than 200 characters, a description longer than 1000 characters
    or a due date that is no ISO 8601 date is answered 400 and nothing is
    stored, whoever asks.  Any other request by a member is answered 201
    with the task it stored under a fresh id, in one write: trimmed title
    and description, the caller as creator, one clock reading as creation
    and update time, and the task starts open, with [completedAt] and
    [completedBy] both [null]. *)
Theorem create_task_outcome (env : Env) (req : CreateTaskReq) (w : World) :
  let r := (create_task env req w).1 in
  let w' := (create_task env req w).2 in
  let title := Js.trim (default "" (ct_title req)) in
  let acceptable :=
    title_ok title /\ task_fields_ok env (ct_description req) (ct_dueDate req) in
  (~ acceptable -> status r = 400%nat /\ w' = w) /\
  (forall g,
     acceptable ->
     groups (db w) !! ct_groupId req = Some g ->
     is_member (userId (ct_user req)) g = true ->
     let id := autoId env (tick w) in
     let t := {| taskId := id; t_groupId := ct_groupId req;
                 t_title := title;
                 t_description := Js.trim (default "" (ct_description req));
                 t_assignee := default None (ct_assignee req);
                 t_dueDate := ct_dueDate req;
                 t_completed := Js.VBool false;
                 t_completedAt := None; t_completedBy := None;
                 t_createdBy := ref_of (ct_user req);
                 t_createdAt := clock env (S (tick w));
                 t_updatedAt := clock env (S (tick w)) |} in
     r = {| status := 201; body := BTask "Task created successfully." t |} /\
     tasks (db w') = <[id := t]> (tasks (db w)) /\
     writes (db w') = writes (db w) ++ [WSet Tasks id]).
Proof.
  cbn zeta. unfold create_task, validate_task, title_ok.
  pose proof (task_fields_errors env (ct_description req) (ct_dueDate req)) as Hf.
  set (title := Js.trim (default "" (ct_title req))) in *.
  set (rest := _ ++ _) in Hf.
  split.
  - intros Hbad.
    destruct (String.eqb title "") eqn:He; [done|].
    destruct (200 <? String.length title)%nat eqn:Hl; [done|].
    cbn [app]. fold rest. clearbody rest. destruct rest as [|e rest']; [|done].
    exfalso. apply Hbad. apply String.eqb_neq in He. apply Nat.ltb_ge in Hl.
    split; [done|]. by apply Hf.
  - intros g [[Hne Hlen] Hok] Hg Hm.
    apply String.eqb_neq in Hne. apply Nat.ltb_ge in Hlen. apply Hf in Hok.
    rewrite Hne, Hlen. cbn [app]. fold rest. rewrite Hok.
    run_routes. rewrite Hg, Hm. run_routes. unfold title. by rewrite trim_idem.
Qed.

(** X12. A task created by a member shows up in the list any member of the
    group fetches next. *)
Theorem created_task_is_listed (env : Env) (req : CreateTaskReq) (u : UserClaims)
  (w : World) (g : Group) :
  groups (db w) !! ct_groupId req = Some g ->
  is_member (userId u) g = true ->
  forall msg t,
    (create_task env req w).1 = {| status := 201; body := BTask msg t |} ->
    exists ts, (get_tasks u (ct_groupId req) (create_task env req w).2).1 = Found ts /\
               t ∈ ts.
Proof.
  intros Hg Hm msg t Hr.
  unfold create_task in *. destruct (validate_task env req) as [title [|e errs]];
    [|discriminate Hr].
  revert Hr. run_routes. destruct (is_member (userId (ct_user req)) g) eqn:Hcm;
    rewrite Hg, ?Hcm; run_routes; [|discriminate].
  intros [= <- <-]. unfold get_tasks. run_routes. rewrite Hg, Hm. run_routes.
  eexists. split; [reflexivity|]. apply tasks_of_spec. cbn.
  split; [|done]. eexists. by rewrite lookup_insert_eq.
Qed.
